(** * Notification services: queue processor and chat webhook receivers

    A shallow embedding of the three request handlers of the repository:
    - [ProcessQueue.process_queue]   -- [app.post('/process-queue')],
    - [ChatwootWebhook.chatwoot_webhook] -- [app.post('/chatwoot-webhook')],
    - [ChatwootHandler.handler]      -- the ticketing-shaped [handler(req, res)].

    The datastore is an explicit state (one list of rows per table) that the
    handlers read and update.  Everything the handlers cannot decide
    themselves -- whether a datastore call reports an error, what the push
    gateway answers to each call, what the clock reads -- is supplied by a
    [world] record, one field per call site.  A handler is then a total
    function from a world and a database to a response, the database after
    the request and the list of outward effects (gateway calls, datastore
    writes) in the order they were issued.

    A datastore call reports a failure in the [error] field of its result
    and does not raise; what can raise is the gateway call, the reading of
    its body, and an access to a field of [undefined].  Timestamps are
    integers (milliseconds); where the source formats an ISO string the
    embedding keeps the integer. *)

From stdpp Require Import base list strings gmap sorting pretty.
From Equations Require Import Equations.

(** ** JSON responses *)

Inductive json :=
| JBool (b : bool)
| JNum (n : Z)
| JStr (s : string).

Global Instance json_eq_dec : EqDecision json.
Proof. solve_decision. Defined.

(** A JS object literal: keys in the order they are written. *)
Definition object := list (string * json).

Record response := { status_code : Z; payload : object }.

Global Instance response_eq_dec : EqDecision response.
Proof. solve_decision. Defined.

(** [res.json(o)] and [res.status(c).json(o)]. *)
Definition res_json (o : object) : response :=
  {| status_code := 200; payload := o |}.
Definition res_status_json (c : Z) (o : object) : response :=
  {| status_code := c; payload := o |}.

Fixpoint get_field (k : string) (o : object) : option json :=
  match o with
  | [] => None
  | (k', v) :: o' => if decide (k' = k) then Some v else get_field k o'
  end.

Definition has_field (k : string) (r : response) : bool :=
  bool_decide (is_Some (get_field k (payload r))).

(** JS truthiness of an optional string ([undefined], [null] and the empty
    string are falsy). *)
Definition truthy (s : option string) : bool :=
  match s with
  | Some s' => bool_decide (s' ≠ "")
  | None => false
  end.

(** ** The datastore *)

Inductive queue_status := pending | processing | sent.

Global Instance queue_status_eq_dec : EqDecision queue_status.
Proof. solve_decision. Defined.

(** Position of a status on the path pending, processing, sent. *)
Definition status_rank (s : queue_status) : nat :=
  match s with pending => 0 | processing => 1 | sent => 2 end.

Module Queue.
(** A row of [notification_queue].  [priority] is the value the datastore
    orders the column by. *)
Record entry := {
  id : Z;
  user_id : string;
  title : string;
  body : string;
  data : option object;
  priority : Z;
  category : string;
  status : queue_status;
  scheduled_for : Z;
  sent_at : option Z
}.

(** [.update({ status: s })] on one row. *)
Definition with_status (s : queue_status) (e : entry) : entry :=
  {| id := id e; user_id := user_id e; title := title e; body := body e;
     data := data e; priority := priority e; category := category e;
     status := s; scheduled_for := scheduled_for e; sent_at := sent_at e |}.

(** [.update({ status: s, sent_at: t })] on one row. *)
Definition with_status_sent_at (s : queue_status) (t : Z) (e : entry) : entry :=
  {| id := id e; user_id := user_id e; title := title e; body := body e;
     data := data e; priority := priority e; category := category e;
     status := s; scheduled_for := scheduled_for e; sent_at := Some t |}.
End Queue.

Module Token.
(** A row of [profile_push_tokens]. *)
Record row := {
  user_id : string;
  expo_push_token : string;
  device_name : string;
  is_active : bool
}.

(** [.update({ is_active: false })] on one row. *)
Definition deactivated (r : row) : row :=
  {| user_id := user_id r; expo_push_token := expo_push_token r;
     device_name := device_name r; is_active := false |}.
End Token.

Module Consultation.
Record row := {
  id : Z;
  user_id : string;
  consultant_id : option string;
  chatwoot_conversation_id : string
}.
End Consultation.

Module Profile.
Record row := { id : string; role : string }.
End Profile.

Module ConsultationMessage.
Record row := {
  id : Z;
  consultation_id : Z;
  user_id : string;
  content : option string;
  message_type : string;
  is_read : bool
}.
End ConsultationMessage.

Record database := {
  notification_queue : list Queue.entry;
  profile_push_tokens : list Token.row;
  consultations : list Consultation.row;
  profiles : list Profile.row;
  consultation_messages : list ConsultationMessage.row
}.

Definition set_notification_queue (q : list Queue.entry) (db : database) : database :=
  {| notification_queue := q;
     profile_push_tokens := profile_push_tokens db;
     consultations := consultations db;
     profiles := profiles db;
     consultation_messages := consultation_messages db |}.

Definition set_profile_push_tokens (t : list Token.row) (db : database) : database :=
  {| notification_queue := notification_queue db;
     profile_push_tokens := t;
     consultations := consultations db;
     profiles := profiles db;
     consultation_messages := consultation_messages db |}.

Definition set_consultation_messages (m : list ConsultationMessage.row) (db : database)
  : database :=
  {| notification_queue := notification_queue db;
     profile_push_tokens := profile_push_tokens db;
     consultations := consultations db;
     profiles := profiles db;
     consultation_messages := m |}.

(** *** The query builder, as the handlers use it

    [.eq], [.lte] and [.in] keep the rows that satisfy a condition, [.order]
    calls sort lexicographically in the order they are chained, [.limit]
    keeps a prefix, [.update(...)] rewrites the rows the filters keep and
    leaves the others alone, [.single()] yields a row only when exactly one
    is left. *)

Definition where_ {A} (P : A → Prop) `{!∀ r, Decision (P r)} (rows : list A) : list A :=
  filter P rows.

Definition update_where {A} (P : A → Prop) `{!∀ r, Decision (P r)}
    (f : A → A) (rows : list A) : list A :=
  (λ r, if decide (P r) then f r else r) <$> rows.

Definition limit {A} (n : nat) (rows : list A) : list A := take n rows.

Definition single {A} (rows : list A) : option A :=
  match rows with
  | [r] => Some r
  | _ => None
  end.

Record order_clause (A : Type) := OrderBy { column : A → Z; ascending : bool }.
Arguments OrderBy {A} _ _.
Arguments column {A} _ _.
Arguments ascending {A} _.

(** Strictly before, according to one [.order(column, { ascending })]. *)
Definition clause_before {A} (c : order_clause A) (a b : A) : Prop :=
  if ascending c then (column c a < column c b)%Z else (column c b < column c a)%Z.

(** [a] may come before [b] under the chained [.order] calls [cs]. *)
Fixpoint order_rel {A} (cs : list (order_clause A)) (a b : A) : Prop :=
  match cs with
  | [] => True
  | c :: cs' => clause_before c a b ∨ (column c a = column c b ∧ order_rel cs' a b)
  end.

Global Instance clause_before_dec {A} (c : order_clause A) a b :
  Decision (clause_before c a b).
Proof. unfold clause_before. destruct (ascending c); apply _. Defined.

Global Instance order_rel_dec {A} (cs : list (order_clause A)) a b :
  Decision (order_rel cs a b).
Proof. induction cs as [|c cs IH]; simpl; apply _. Defined.

Definition order {A} (cs : list (order_clause A)) (rows : list A) : list A :=
  merge_sort (order_rel cs) rows.

(** ** The push gateway *)

Module Msg.
(** A push message, as posted to the gateway. *)
Record t := {
  to : string;
  sound : string;
  title : string;
  body : string;
  data : object;
  priority : json;
  channelId : string
}.
End Msg.

Module Ticket.
Record details_t := { error : option string }.
Record t := { status : string; details : option details_t }.
End Ticket.

(** What one [fetch] to the gateway comes back with. *)
Inductive gateway_reply :=
| NetworkError (message : string)          (* [fetch] rejects *)
| HttpError (code : Z) (text : string)     (* [response.ok] is false *)
| MalformedBody (message : string)         (* [response.json()] rejects *)
| Delivered (data : option (list Ticket.t)). (* [result.data], when present *)

(** [ticket.status === 'error' && ticket.details?.error === 'DeviceNotRegistered'] *)
Definition device_not_registered (ticket : Ticket.t) : bool :=
  bool_decide (Ticket.status ticket = "error") &&
  bool_decide ((Ticket.details ticket ≫= Ticket.error) = Some "DeviceNotRegistered").

(** ** Outward effects of a request *)

Inductive effect :=
| GatewaySend (messages : list Msg.t)
    (* one POST of a message array to the gateway *)
| UpdateQueueStatus (s : queue_status) (sent_at : option Z) (ids : list Z)
    (* [.update({ status, sent_at? }).in('id', ids)] on the queue *)
| DeactivateTokens (tokens : list string)
    (* [.update({ is_active: false })] on the rows whose token is listed:
       [.in('expo_push_token', tokens)], or [.eq] with a single token *)
| InsertConsultationMessage (row : ConsultationMessage.row).

Definition is_gateway_send (e : effect) : bool :=
  match e with GatewaySend _ => true | _ => false end.

Definition is_insert (e : effect) : bool :=
  match e with InsertConsultationMessage _ => true | _ => false end.

Definition outcome : Type := response * database * list effect.

(** ** JS objects used as insertion-ordered maps from a key to an array

    [byUser] and [tokensByUser] are plain objects whose values are arrays.
    User ids are opaque identifiers (UUIDs): none is an array index or the
    name of an inherited property, so a key is absent until it is added and
    [Object.entries] lists the keys in the order they were first added. *)

Definition multimap (A : Type) := list (string * list A).

(** [if (!o[k]) o[k] = []; o[k].push(v)] *)
Fixpoint obj_push {A} (k : string) (v : A) (o : multimap A) : multimap A :=
  match o with
  | [] => [(k, [v])]
  | (k', vs) :: o' =>
      if decide (k' = k) then (k', vs ++ [v]) :: o'
      else (k', vs) :: obj_push k v o'
  end.

(** [o[k] || []] *)
Fixpoint obj_get {A} (k : string) (o : multimap A) : list A :=
  match o with
  | [] => []
  | (k', vs) :: o' => if decide (k' = k) then vs else obj_get k o'
  end.

(** [Object.keys(o)] *)
Definition obj_keys {A} (o : multimap A) : list string := o.*1.

(** ** The queue processor ([process-queue.js]) *)

Module ProcessQueue.

Definition BATCH_SIZE : nat := 500.
Definition CHUNK_SIZE : nat := 100.
Definition CONCURRENT_REQUESTS : nat := 5.

(** What the collaborators answer during one request. *)
Record world := {
  startTime : Z;                      (* [Date.now()] on entry *)
  fetchTime : Z;                      (* [new Date()] in the pending query *)
  fetchError : option string;
  updateError : option string;
  tokensError : option string;
  gateway : nat → gateway_reply;      (* reply to the k-th chunk, from 0 *)
  deactivateFails : bool;             (* result of that update is not read *)
  sentTime : Z;                       (* [new Date()] in the final update *)
  finalUpdateError : option string;
  endTime : Z                         (* [Date.now()] before responding *)
}.

(** *** Datastore calls of the handler *)

(** Step 1: the pending query. *)
Definition claim_order : list (order_clause Queue.entry) :=
  [OrderBy Queue.priority false; OrderBy Queue.scheduled_for true].

Definition fetch_pending (now : Z) (table : list Queue.entry) : list Queue.entry :=
  limit BATCH_SIZE
    (order claim_order
      (where_ (λ n, (Queue.scheduled_for n ≤ now)%Z)
        (where_ (λ n, Queue.status n = pending) table))).

(** Step 2: [.update({ status: 'processing' }).in('id', notificationIds)] *)
Definition mark_processing (notificationIds : list Z) (db : database) : database :=
  set_notification_queue
    (update_where (λ n, Queue.id n ∈ notificationIds)
       (Queue.with_status processing) (notification_queue db)) db.

(** Step 4: active tokens of the users of the batch. *)
Definition fetch_tokens (userIds : list string) (db : database) : list Token.row :=
  where_ (λ t, Token.is_active t = true)
    (where_ (λ t, Token.user_id t ∈ userIds) (profile_push_tokens db)).

(** Step 7: [.update({ is_active: false }).in('expo_push_token', tokens)] *)
Definition deactivate_tokens (tokens : list string) (db : database) : database :=
  set_profile_push_tokens
    (update_where (λ t, Token.expo_push_token t ∈ tokens)
       Token.deactivated (profile_push_tokens db)) db.

(** Step 8 (and the zero-message return):
    [.update({ status: 'sent', sent_at }).in('id', notificationIds)] *)
Definition mark_sent (now : Z) (notificationIds : list Z) (db : database) : database :=
  set_notification_queue
    (update_where (λ n, Queue.id n ∈ notificationIds)
       (Queue.with_status_sent_at sent now) (notification_queue db)) db.

(** *** Steps 3 to 5: grouping and expansion *)

Definition group_by_user (notifications : list Queue.entry) : multimap Queue.entry :=
  foldl (λ byUser notif, obj_push (Queue.user_id notif) notif byUser) [] notifications.

Definition index_tokens (tokens : list Token.row) : multimap string :=
  foldl (λ tokensByUser token,
           obj_push (Token.user_id token) (Token.expo_push_token token) tokensByUser)
        [] tokens.

(** The object literal pushed to [messages]; [data || {}] and
    [priority || 'default'] fall back on a missing data object and on a
    zero priority. *)
Definition make_message (notification : Queue.entry) (token : string) : Msg.t :=
  {| Msg.to := token;
     Msg.sound := "default";
     Msg.title := Queue.title notification;
     Msg.body := Queue.body notification;
     Msg.data := default [] (Queue.data notification);
     Msg.priority :=
       (if decide (Queue.priority notification = 0%Z) then JStr "default"
        else JNum (Queue.priority notification));
     Msg.channelId := Queue.category notification |}.

(** The body of the loop over [Object.entries(byUser)]: the messages one
    user contributes.  ([notificationToTokens] is written there too and
    never read; it is left out.) *)
Definition user_messages (tokensByUser : multimap string)
    (userId : string) (userNotifications : list Queue.entry) : list Msg.t :=
  let userTokens := obj_get userId tokensByUser in
  if decide (length userTokens = 0) then []
  else userNotifications ≫= (λ notification, make_message notification <$> userTokens).

Definition expand (byUser : multimap Queue.entry) (tokensByUser : multimap string)
  : list Msg.t :=
  byUser ≫= (λ '(userId, userNotifications),
               user_messages tokensByUser userId userNotifications).

(** *** Step 6: delivery in chunks *)

(** [messages.slice(from, to)] for [0 <= from <= to]. *)
Definition slice {A} (from to : nat) (l : list A) : list A :=
  take (to - from) (drop from l).

(** The [for (let i = 0; i < messages.length; i += CHUNK_SIZE)] loop, with
    its body abstracted: [body i chunk s] is the state after the iteration
    that starts at index [i]. *)
Equations? chunk_loop {S : Type} (body : nat → list Msg.t → S → S)
    (messages : list Msg.t) (i : nat) (s : S) : S by wf (length messages - i) lt :=
  chunk_loop body messages i s with decide (i < length messages) => {
    | left _ :=
        chunk_loop body messages (i + CHUNK_SIZE)
          (body i (slice i (i + CHUNK_SIZE) messages) s);
    | right _ := s }.
Proof. unfold CHUNK_SIZE. lia. Qed.

(** The chunks the loop visits, in order. *)
Definition chunks (messages : list Msg.t) : list (list Msg.t) :=
  chunk_loop (λ _ chunk acc, acc ++ [chunk]) messages 0 [].

(** The scan of [result.data].  When a ticket reports an unregistered
    device at a position the chunk does not have, [chunk[j].to] raises and
    the enclosing [catch] ends the iteration with what was collected. *)
Fixpoint detect_invalid (chunk : list Msg.t) (j : nat) (tickets : list Ticket.t)
    (invalidTokens : gset string) : gset string :=
  match tickets with
  | [] => invalidTokens
  | ticket :: rest =>
      if device_not_registered ticket then
        match chunk !! j with
        | Some m => detect_invalid chunk (S j) rest ({[Msg.to m]} ∪ invalidTokens)
        | None => invalidTokens
        end
      else detect_invalid chunk (S j) rest invalidTokens
  end.

Record delivery := {
  totalSent : nat;
  invalidTokens : gset string;
  sends : list effect
}.

(** One iteration: the [try { ... } catch] around one gateway call.  (The
    pause between chunks has no effect on the state and is not kept.) *)
Definition send_chunk (w : world) (i : nat) (chunk : list Msg.t) (d : delivery)
  : delivery :=
  match gateway w (i / CHUNK_SIZE) with
  | Delivered data =>
      {| totalSent := totalSent d + length chunk;
         invalidTokens :=
           match data with
           | Some tickets => detect_invalid chunk 0 tickets (invalidTokens d)
           | None => invalidTokens d
           end;
         sends := sends d ++ [GatewaySend chunk] |}
  | _ =>
      {| totalSent := totalSent d;
         invalidTokens := invalidTokens d;
         sends := sends d ++ [GatewaySend chunk] |}
  end.

Definition deliver (w : world) (messages : list Msg.t) : delivery :=
  chunk_loop (send_chunk w) messages 0
    {| totalSent := 0; invalidTokens := ∅; sends := [] |}.

(** *** The handler *)

Definition apply_unless {E} (failure : option E) (f : database → database)
    (db : database) : database :=
  match failure with
  | Some _ => db
  | None => f db
  end.

(** Everything after the pending rows have come back. *)
Definition after_claim (w : world) (notifications : list Queue.entry) (db : database)
  : outcome :=
  if decide (length notifications = 0) then
    (res_json [("ok", JBool true); ("processed", JNum 0)], db, [])
  else
    let notificationIds := Queue.id <$> notifications in
    let ev_processing := UpdateQueueStatus processing None notificationIds in
    match updateError w with
    | Some message =>
        (res_status_json 500 [("error", JStr message)], db, [ev_processing])
    | None =>
        let db1 := mark_processing notificationIds db in
        let byUser := group_by_user notifications in
        let userIds := obj_keys byUser in
        match tokensError w with
        | Some message =>
            (res_status_json 500 [("error", JStr message)], db1, [ev_processing])
        | None =>
            let tokens := fetch_tokens userIds db1 in
            let tokensByUser := index_tokens tokens in
            let messages := expand byUser tokensByUser in
            let ev_sent := UpdateQueueStatus sent (Some (sentTime w)) notificationIds in
            if decide (length messages = 0) then
              (res_json [("ok", JBool true);
                         ("processed", JNum (Z.of_nat (length notifications)));
                         ("sent", JNum 0)],
               apply_unless (finalUpdateError w)
                 (mark_sent (sentTime w) notificationIds) db1,
               [ev_processing; ev_sent])
            else
              let d := deliver w messages in
              let invalid := elements (invalidTokens d) in
              let db2 :=
                if decide (0 < size (invalidTokens d)) then
                  (if deactivateFails w then db1 else deactivate_tokens invalid db1)
                else db1 in
              let ev_deactivate :=
                if decide (0 < size (invalidTokens d))
                then [DeactivateTokens invalid] else [] in
              let db3 :=
                apply_unless (finalUpdateError w)
                  (mark_sent (sentTime w) notificationIds) db2 in
              (res_json [("ok", JBool true);
                         ("processed", JNum (Z.of_nat (length notifications)));
                         ("sent", JNum (Z.of_nat (totalSent d)));
                         ("invalidTokens", JNum (Z.of_nat (size (invalidTokens d))));
                         ("duration_ms", JNum (endTime w - startTime w))],
               db3,
               [ev_processing] ++ sends d ++ ev_deactivate ++ [ev_sent])
        end
    end.

Definition process_queue (w : world) (db : database) : outcome :=
  match fetchError w with
  | Some message => (res_status_json 500 [("error", JStr message)], db, [])
  | None => after_claim w (fetch_pending (fetchTime w) (notification_queue db)) db
  end.

End ProcessQueue.

(** ** The webhook receiver, generic payload ([chatwoot-webhook.js]) *)

Module ChatwootWebhook.

Record sender_t := { type : option string }.
Record contact_t := { identifier : option string }.

(** [req.body], with the fields the handler destructures. *)
Record body_t := {
  event : option string;
  message_type : option string;
  content : option string;
  sender : option sender_t;
  contact : option contact_t
}.

Record world := {
  startTime : Z;
  tokensError : option string;
  messageTime : Z;                    (* [new Date()] in the message data *)
  gateway : gateway_reply;
  deactivateFails : nat → bool;       (* per ticket position; result not read *)
  endTime : Z
}.

Definition fetch_tokens (userId : string) (db : database) : list Token.row :=
  where_ (λ t, Token.is_active t = true)
    (where_ (λ t, Token.user_id t = userId) (profile_push_tokens db)).

(** [.update({ is_active: false }).eq('expo_push_token', invalidToken)] *)
Definition deactivate_token (invalidToken : string) (db : database) : database :=
  set_profile_push_tokens
    (update_where (λ t, Token.expo_push_token t = invalidToken)
       Token.deactivated (profile_push_tokens db)) db.

Definition make_message (w : world) (userId : string) (content : option string)
    (t : Token.row) : Msg.t :=
  {| Msg.to := Token.expo_push_token t;
     Msg.sound := "default";
     Msg.title := "💬 Nuevo mensaje";
     Msg.body :=
       (if truthy content then default "" content
        else "Tienes un nuevo mensaje en el chat");
     Msg.data := [("type", JStr "chat_message");
                  ("userId", JStr userId);
                  ("timestamp", JNum (messageTime w))];
     Msg.priority := JStr "high";
     Msg.channelId := "chat" |}.

(** The message of the [TypeError] that [messages[i].to] raises when
    [messages[i]] is [undefined]. *)
Definition undefined_to : string :=
  "Cannot read properties of undefined (reading 'to')".

(** The loop over [result.data], from position [i]: the database and the
    writes issued so far, and the error if the loop raised. *)
Fixpoint reconcile (w : world) (messages : list Msg.t) (i : nat)
    (tickets : list Ticket.t) (db : database) (issued : list effect)
  : database * list effect * option string :=
  match tickets with
  | [] => (db, issued, None)
  | ticket :: rest =>
      if device_not_registered ticket then
        match messages !! i with
        | Some m =>
            let invalidToken := Msg.to m in
            reconcile w messages (S i) rest
              (if deactivateFails w i then db else deactivate_token invalidToken db)
              (issued ++ [DeactivateTokens [invalidToken]])
        | None => (db, issued, Some undefined_to)
        end
      else reconcile w messages (S i) rest db issued
  end.

(** The [catch] block. *)
Definition fatal (w : world) (message : string) : response :=
  res_status_json 500 [("error", JStr message);
                       ("duration_ms", JNum (endTime w - startTime w))].

Definition chatwoot_webhook (w : world) (req : body_t) (db : database) : outcome :=
  if decide (event req ≠ Some "message_created" ∨ message_type req ≠ Some "incoming")
  then (res_json [("ok", JBool true); ("message", JStr "Event ignored")], db, [])
  else if decide ((sender req ≫= type) ≠ Some "User")
  then (res_json [("ok", JBool true); ("message", JStr "Not from user")], db, [])
  else
    let userId := contact req ≫= identifier in
    if negb (truthy userId)
    then (res_status_json 400 [("error", JStr "Missing user identifier")], db, [])
    else
      let userId := default "" userId in
      match tokensError w with
      | Some message => (res_status_json 500 [("error", JStr message)], db, [])
      | None =>
          let tokens := fetch_tokens userId db in
          if decide (length tokens = 0)
          then (res_json [("ok", JBool true); ("message", JStr "No active tokens")],
                db, [])
          else
            let messages := make_message w userId (content req) <$> tokens in
            let ev_send := GatewaySend messages in
            match gateway w with
            | NetworkError message => (fatal w message, db, [ev_send])
            | HttpError _ errorText =>
                (res_status_json 500 [("error", JStr "Expo API error");
                                      ("details", JStr errorText)],
                 db, [ev_send])
            | MalformedBody message => (fatal w message, db, [ev_send])
            | Delivered data =>
                let '(db', issued, raised) :=
                  match data with
                  | Some tickets => reconcile w messages 0 tickets db []
                  | None => (db, [], None)
                  end in
                match raised with
                | Some message => (fatal w message, db', ev_send :: issued)
                | None =>
                    (res_json [("ok", JBool true);
                               ("sent", JNum (Z.of_nat (length tokens)));
                               ("duration_ms", JNum (endTime w - startTime w))],
                     db', ev_send :: issued)
                end
            end
      end.

End ChatwootWebhook.

(** ** The webhook receiver, ticketing payload ([handler(req, res)]) *)

Module ChatwootHandler.

Record sender_t := { type : option string }.

Record message_t := {
  message_type : option string;
  content : option string;
  sender : option sender_t
}.

Record conversation_t := { id : Z }.

Record webhook_t := {
  event : option string;
  message : option message_t;
  conversation : option conversation_t
}.

Record request := { method : string; body : webhook_t }.

Record world := {
  consultationError : bool;           (* the consultation lookup fails *)
  adminError : bool;                  (* the profile lookup fails *)
  messageError : option string;       (* the insert fails *)
  savedMessageId : Z                  (* id the datastore gives the new row *)
}.

(** [.eq('chatwoot_conversation_id', conversation.id.toString()).single()] *)
Definition find_consultation (w : world) (conversation : conversation_t)
    (db : database) : option Consultation.row :=
  if consultationError w then None
  else single
         (where_ (λ c, Consultation.chatwoot_conversation_id c = pretty (id conversation))
            (consultations db)).

(** [.in('role', ['admin', 'author']).limit(1).single()] *)
Definition find_admin (w : world) (db : database) : option Profile.row :=
  if adminError w then None
  else single (limit 1 (where_ (λ p, Profile.role p ∈ ["admin"; "author"]) (profiles db))).

(** The sender the message is attributed to, and its type. *)
Definition attribute (w : world) (msg : message_t) (consultation : Consultation.row)
    (db : database) : string * string :=
  if bool_decide ((sender msg ≫= type) = Some "agent") then
    if truthy (Consultation.consultant_id consultation) then
      (default "" (Consultation.consultant_id consultation), "consultant")
    else
      match find_admin w db with
      | Some admin => (Profile.id admin, "consultant")
      | None => (Consultation.user_id consultation, "system")
      end
  else (Consultation.user_id consultation, "user").

(** The [catch] block. *)
Definition fatal (message : string) : response :=
  res_status_json 500 [("error", JStr "Internal server error");
                       ("details", JStr message)].

Definition handler (w : world) (req : request) (db : database) : outcome :=
  if decide (method req ≠ "POST")
  then (res_status_json 405 [("error", JStr "Method not allowed")], db, [])
  else
    let webhook := body req in
    if decide (event webhook ≠ Some "message_created")
    then (res_status_json 200 [("success", JBool true);
                               ("message", JStr "Event ignored")], db, [])
    else
      match message webhook with
      | None =>
          (fatal "Cannot read properties of undefined (reading 'message_type')", db, [])
      | Some msg =>
          if decide (message_type msg = Some "outgoing")
          then (res_status_json 200 [("success", JBool true);
                                     ("message", JStr "Outgoing message ignored")],
                db, [])
          else
            match conversation webhook with
            | None =>
                (fatal "Cannot read properties of undefined (reading 'id')", db, [])
            | Some conv =>
                match find_consultation w conv db with
                | None =>
                    (res_status_json 404 [("error", JStr "Consultation not found");
                                          ("conversation_id", JNum (id conv))],
                     db, [])
                | Some consultation =>
                    let '(senderId, messageType) := attribute w msg consultation db in
                    let savedMessage :=
                      {| ConsultationMessage.id := savedMessageId w;
                         ConsultationMessage.consultation_id :=
                           Consultation.id consultation;
                         ConsultationMessage.user_id := senderId;
                         ConsultationMessage.content := content msg;
                         ConsultationMessage.message_type := messageType;
                         ConsultationMessage.is_read := false |} in
                    match messageError w with
                    | Some message =>
                        (res_status_json 500 [("error", JStr "Failed to save message");
                                              ("details", JStr message)],
                         db, [InsertConsultationMessage savedMessage])
                    | None =>
                        (res_status_json 200
                           [("success", JBool true);
                            ("message_id", JNum (savedMessageId w));
                            ("consultation_id", JNum (Consultation.id consultation))],
                         set_consultation_messages
                           (consultation_messages db ++ [savedMessage]) db,
                         [InsertConsultationMessage savedMessage])
                    end
                end
            end
      end.

End ChatwootHandler.

(** * Notions used in the statements *)

Section notions.
Import ProcessQueue.

(** The chunk loop run over an explicit list of chunks. *)
Fixpoint run_chunks {S : Type} (body : nat → list Msg.t → S → S)
    (i : nat) (cs : list (list Msg.t)) (s : S) : S :=
  match cs with
  | [] => s
  | c :: cs' => run_chunks body (i + CHUNK_SIZE) cs' (body i c s)
  end.

(** The chunks the loop visits when it is entered at index [i]. *)
Definition chunks_from (messages : list Msg.t) (i : nat) : list (list Msg.t) :=
  chunk_loop (λ _ chunk acc, acc ++ [chunk]) messages i [].

Definition delivered_ok (reply : gateway_reply) : bool :=
  match reply with Delivered _ => true | _ => false end.

(** The sent count, read off the chunk list: the [k]-th chunk counts in
    full when its call was delivered and not at all otherwise. *)
Fixpoint sent_count (w : world) (k : nat) (cs : list (list Msg.t)) : nat :=
  match cs with
  | [] => 0
  | c :: cs' =>
      (if delivered_ok (gateway w k) then length c else 0) + sent_count w (S k) cs'
  end.

(** A ticket at position [j] of the reply to [chunk] reports the device of
    the message at position [j] as not registered, and that message goes
    to [token]. *)
Definition position_unregistered (chunk : list Msg.t) (tickets : list Ticket.t)
    (token : string) : Prop :=
  ∃ j ticket m,
    tickets !! j = Some ticket ∧ chunk !! j = Some m ∧
    Ticket.status ticket = "error" ∧
    (Ticket.details ticket ≫= Ticket.error) = Some "DeviceNotRegistered" ∧
    Msg.to m = token.

(** The same for the reply to the [k]-th chunk or a later one of [cs]. *)
Definition reported_unregistered (w : world) (k : nat) (cs : list (list Msg.t))
    (token : string) : Prop :=
  ∃ n chunk tickets,
    cs !! n = Some chunk ∧ gateway w (k + n) = Delivered (Some tickets) ∧
    position_unregistered chunk tickets token.

(** The parts of an outcome. *)
Definition response_of (o : outcome) : response := o.1.1.
Definition database_of (o : outcome) : database := o.1.2.
Definition effects_of (o : outcome) : list effect := o.2.

(** The messages prepared for a batch: steps 3 to 5 on [notifications]. *)
Definition prepared (notifications : list Queue.entry) (db : database) : list Msg.t :=
  let byUser := group_by_user notifications in
  expand byUser (index_tokens (fetch_tokens (obj_keys byUser) db)).

(** The rows a request claims. *)
Definition claimed (w : world) (db : database) : list Queue.entry :=
  match fetchError w with
  | Some _ => []
  | None => fetch_pending (fetchTime w) (notification_queue db)
  end.

(** The batches claimed by a run of later requests, one world per request. *)
Fixpoint later_claims (ws : list world) (db : database) : list (list Queue.entry) :=
  match ws with
  | [] => []
  | w :: ws' => claimed w db :: later_claims ws' (database_of (process_queue w db))
  end.

(** No row with an id of [ids] is pending. *)
Definition held (ids : list Z) (db : database) : Prop :=
  ∀ r, r ∈ notification_queue db → Queue.id r ∈ ids → Queue.status r ≠ pending.

(** Every row of the token table that carries [token] is inactive. *)
Definition inactive (token : string) (db : database) : Prop :=
  ∀ r, r ∈ profile_push_tokens db → Token.expo_push_token r = token →
       Token.is_active r = false.

(** What a request may do to one row: a token row is left alone or
    deactivated; a queue row keeps its id and does not move back on the path
    pending, processing, sent. *)
Definition token_step (r r' : Token.row) : Prop :=
  r' = r ∨ r' = Token.deactivated r.

Definition entry_step (e e' : Queue.entry) : Prop :=
  Queue.id e' = Queue.id e ∧
  status_rank (Queue.status e) ≤ status_rank (Queue.status e').

Definition advances (db db' : database) : Prop :=
  Forall2 entry_step (notification_queue db) (notification_queue db') ∧
  Forall2 token_step (profile_push_tokens db) (profile_push_tokens db').

(** The active push tokens of a user, in table order. *)
Definition active_tokens (user : string) (db : database) : list string :=
  Token.expo_push_token <$>
    filter (λ t, Token.user_id t = user ∧ Token.is_active t = true)
           (profile_push_tokens db).

(** One message for every pair of an entry and an active token of the
    entry's user, entry by entry. *)
Definition pair_messages (notifications : list Queue.entry) (db : database)
  : list Msg.t :=
  notifications ≫=
    (λ n, make_message n <$> active_tokens (Queue.user_id n) db).

(** The entries of a user in a batch. *)
Definition entries_of (user : string) (notifications : list Queue.entry)
  : list Queue.entry :=
  filter (λ n, Queue.user_id n = user) notifications.

(** The scenario of three pending entries for two users, [a] with two
    active tokens and [b] with none. *)
Definition three_entries_two_users (a b : string)
    (notifications : list Queue.entry) (db : database) : Prop :=
  a ≠ b ∧ length notifications = 3 ∧
  Forall (λ n, Queue.status n = pending ∧
               (Queue.user_id n = a ∨ Queue.user_id n = b)) notifications ∧
  entries_of a notifications ≠ [] ∧ entries_of b notifications ≠ [] ∧
  length (active_tokens a db) = 2 ∧ length (active_tokens b db) = 0.
End notions.

(** The four ways the handler can end once it holds a non-empty batch: the
    update to processing is refused, the token query fails, no message is
    prepared, or the messages are delivered in chunks. *)
Section batch_ends.
Import ProcessQueue.
Variables (w : world) (notifications : list Queue.entry) (db : database).

Let ids := Queue.id <$> notifications.
Let db1 := mark_processing ids db.
Let messages := prepared notifications db.
Let d := deliver w messages.
Let ev_processing := UpdateQueueStatus processing None ids.
Let ev_sent := UpdateQueueStatus sent (Some (sentTime w)) ids.

Inductive batch_end : outcome → Prop :=
| update_failed message :
    updateError w = Some message →
    batch_end (res_status_json 500 [("error", JStr message)], db, [ev_processing])
| tokens_failed message :
    updateError w = None → tokensError w = Some message →
    batch_end (res_status_json 500 [("error", JStr message)], db1, [ev_processing])
| nothing_to_send :
    updateError w = None → tokensError w = None → messages = [] →
    batch_end
      (res_json [("ok", JBool true);
                 ("processed", JNum (Z.of_nat (length notifications)));
                 ("sent", JNum 0)],
       apply_unless (finalUpdateError w) (mark_sent (sentTime w) ids) db1,
       [ev_processing; ev_sent])
| delivered db2 ev_deactivate :
    updateError w = None → tokensError w = None → messages ≠ [] →
    (size (invalidTokens d) = 0 ∧ db2 = db1 ∧ ev_deactivate = [] ∨
     0 < size (invalidTokens d) ∧
     db2 = (if deactivateFails w then db1
            else deactivate_tokens (elements (invalidTokens d)) db1) ∧
     ev_deactivate = [DeactivateTokens (elements (invalidTokens d))]) →
    batch_end
      (res_json [("ok", JBool true);
                 ("processed", JNum (Z.of_nat (length notifications)));
                 ("sent", JNum (Z.of_nat (totalSent d)));
                 ("invalidTokens", JNum (Z.of_nat (size (invalidTokens d))));
                 ("duration_ms", JNum (endTime w - startTime w))],
       apply_unless (finalUpdateError w) (mark_sent (sentTime w) ids) db2,
       [ev_processing] ++ (GatewaySend <$> chunks messages) ++ ev_deactivate
         ++ [ev_sent]).
End batch_ends.

(** The groups of a multimap, each weighted by its size times a weight of
    its key. *)
Definition weight {A} (f : string → nat) (o : multimap A) : nat :=
  sum_list_with (λ g, length g.2 * f g.1) o.

Section webhook_notions.
Import ChatwootWebhook.

(** A ticket at position [j] of [tickets] flags the message at position
    [i + j] of [messages]. *)
Definition flags (messages : list Msg.t) (i : nat) (tickets : list Ticket.t)
    (j : nat) (m : Msg.t) : Prop :=
  ∃ ticket, tickets !! j = Some ticket ∧ messages !! (i + j) = Some m ∧
            device_not_registered ticket = true.

(** The request passes every filter and the user has active tokens: the
    handler goes on to call the gateway. *)
Definition calls_gateway (w : world) (req : body_t) (db : database)
    (userId : string) : Prop :=
  event req = Some "message_created" ∧ message_type req = Some "incoming" ∧
  (sender req ≫= type) = Some "User" ∧
  (contact req ≫= identifier) = Some userId ∧ userId ≠ "" ∧
  tokensError w = None ∧ fetch_tokens userId db ≠ [].

(** ... and the gateway call is delivered. *)
Definition reaches_gateway (w : world) (req : body_t) (db : database)
    (userId : string) (data : option (list Ticket.t)) : Prop :=
  calls_gateway w req db userId ∧ gateway w = Delivered data.

(** What is left of the handler from the gateway call on. *)
Definition from_gateway (w : world) (req : body_t) (db : database) (userId : string)
  : outcome :=
  let tokens := fetch_tokens userId db in
  let messages := make_message w userId (content req) <$> tokens in
  match gateway w with
  | NetworkError message => (fatal w message, db, [GatewaySend messages])
  | HttpError _ errorText =>
      (res_status_json 500 [("error", JStr "Expo API error");
                            ("details", JStr errorText)],
       db, [GatewaySend messages])
  | MalformedBody message => (fatal w message, db, [GatewaySend messages])
  | Delivered data =>
      let r := match data with
               | Some tickets => reconcile w messages 0 tickets db []
               | None => (db, [], None)
               end in
      (match r.2 with
       | Some message => fatal w message
       | None => res_json [("ok", JBool true);
                           ("sent", JNum (Z.of_nat (length tokens)));
                           ("duration_ms", JNum (endTime w - startTime w))]
       end, r.1.1, GatewaySend messages :: r.1.2)
  end.
End webhook_notions.

(** * Sample data

    A small table, a gateway that reports the second message of every call
    as gone, and a request over them. *)

Module Sample.

Definition entry (id : Z) (user : string) (priority scheduled_for : Z) : Queue.entry :=
  {| Queue.id := id; Queue.user_id := user;
     Queue.title := "Aviso"; Queue.body := "Tienes una novedad";
     Queue.data := None; Queue.priority := priority;
     Queue.category := "general"; Queue.status := pending;
     Queue.scheduled_for := scheduled_for; Queue.sent_at := None |}.

Definition token (user push_token : string) (active : bool) : Token.row :=
  {| Token.user_id := user; Token.expo_push_token := push_token;
     Token.device_name := "phone"; Token.is_active := active |}.

Definition tokens : list Token.row :=
  [token "alice" "ExponentPushToken[a1]" true;
   token "alice" "ExponentPushToken[a2]" true;
   token "bob" "ExponentPushToken[b1]" false].

Definition table (queue : list Queue.entry) : database :=
  {| notification_queue := queue;
     profile_push_tokens := tokens;
     consultations := [];
     profiles := [];
     consultation_messages := [] |}.

(** Three pending entries for two users; alice has two active tokens and
    two of the entries, bob has no active token. *)
Definition db : database :=
  table [entry 1 "alice" 5 10; entry 2 "alice" 1 20; entry 3 "bob" 5 5].

(** The same, with one entry for alice and two for bob. *)
Definition db_one : database :=
  table [entry 1 "alice" 5 10; entry 2 "bob" 1 20; entry 3 "bob" 5 5].

Definition ticket_ok : Ticket.t :=
  {| Ticket.status := "ok"; Ticket.details := None |}.

Definition ticket_error (code : string) : Ticket.t :=
  {| Ticket.status := "error";
     Ticket.details := Some {| Ticket.error := Some code |} |}.

Definition world : ProcessQueue.world :=
  {| ProcessQueue.startTime := 1000;
     ProcessQueue.fetchTime := 100;
     ProcessQueue.fetchError := None;
     ProcessQueue.updateError := None;
     ProcessQueue.tokensError := None;
     ProcessQueue.gateway :=
       (λ _, Delivered (Some [ticket_ok; ticket_error "DeviceNotRegistered";
                              ticket_error "MessageTooBig"; ticket_ok]));
     ProcessQueue.deactivateFails := false;
     ProcessQueue.sentTime := 1500;
     ProcessQueue.finalUpdateError := None;
     ProcessQueue.endTime := 2000 |}.

(** 125 entries for alice, hence 250 messages in three chunks, and a gateway
    that answers the second call with HTTP 500. *)
Definition db_bulk : database :=
  table ((λ i, entry (Z.of_nat i) "alice" 0 0) <$> seq 1 125).

Definition world_flaky : ProcessQueue.world :=
  {| ProcessQueue.startTime := 1000;
     ProcessQueue.fetchTime := 100;
     ProcessQueue.fetchError := None;
     ProcessQueue.updateError := None;
     ProcessQueue.tokensError := None;
     ProcessQueue.gateway :=
       (λ k, if decide (k = 1) then HttpError 500 "Internal Server Error"
             else Delivered (Some []));
     ProcessQueue.deactivateFails := false;
     ProcessQueue.sentTime := 1500;
     ProcessQueue.finalUpdateError := Some "connection reset";
     ProcessQueue.endTime := 2000 |}.

(** A chat message from alice, and a gateway that reports her second device
    as gone. *)
Definition request : ChatwootWebhook.body_t :=
  {| ChatwootWebhook.event := Some "message_created";
     ChatwootWebhook.message_type := Some "incoming";
     ChatwootWebhook.content := Some "Hola";
     ChatwootWebhook.sender := Some {| ChatwootWebhook.type := Some "User" |};
     ChatwootWebhook.contact :=
       Some {| ChatwootWebhook.identifier := Some "alice" |} |}.

Definition hook_world : ChatwootWebhook.world :=
  {| ChatwootWebhook.startTime := 10;
     ChatwootWebhook.tokensError := None;
     ChatwootWebhook.messageTime := 11;
     ChatwootWebhook.gateway :=
       Delivered (Some [ticket_ok; ticket_error "DeviceNotRegistered"]);
     ChatwootWebhook.deactivateFails := (λ _, false);
     ChatwootWebhook.endTime := 25 |}.

(** One pending entry for bob, and a request whose token query fails. *)
Definition db_solo : database := table [entry 1 "bob" 5 5].

Definition world_tokens_down : ProcessQueue.world :=
  {| ProcessQueue.startTime := 1000;
     ProcessQueue.fetchTime := 100;
     ProcessQueue.fetchError := None;
     ProcessQueue.updateError := None;
     ProcessQueue.tokensError := Some "timeout";
     ProcessQueue.gateway := (λ _, Delivered None);
     ProcessQueue.deactivateFails := false;
     ProcessQueue.sentTime := 1500;
     ProcessQueue.finalUpdateError := None;
     ProcessQueue.endTime := 2000 |}.

(** A consultation of alice with carol as consultant, linked to
    conversation 42, and an incoming message of an agent in it. *)
Definition db_chat : database :=
  {| notification_queue := [];
     profile_push_tokens := tokens;
     consultations :=
       [{| Consultation.id := 7; Consultation.user_id := "alice";
           Consultation.consultant_id := Some "carol";
           Consultation.chatwoot_conversation_id := "42" |}];
     profiles := [];
     consultation_messages := [] |}.

Definition agent_request : ChatwootHandler.request :=
  {| ChatwootHandler.method := "POST";
     ChatwootHandler.body :=
       {| ChatwootHandler.event := Some "message_created";
          ChatwootHandler.message :=
            Some {| ChatwootHandler.message_type := Some "incoming";
                    ChatwootHandler.content := Some "Buenos dias";
                    ChatwootHandler.sender :=
                      Some {| ChatwootHandler.type := Some "agent" |} |};
          ChatwootHandler.conversation := Some {| ChatwootHandler.id := 42 |} |} |}.

Definition handler_world : ChatwootHandler.world :=
  {| ChatwootHandler.consultationError := false;
     ChatwootHandler.adminError := false;
     ChatwootHandler.messageError := None;
     ChatwootHandler.savedMessageId := 1 |}.

(** An outgoing message, in each of the two payload shapes. *)
Definition outgoing_request : ChatwootWebhook.body_t :=
  {| ChatwootWebhook.event := Some "message_created";
     ChatwootWebhook.message_type := Some "outgoing";
     ChatwootWebhook.content := Some "Hola";
     ChatwootWebhook.sender := Some {| ChatwootWebhook.type := Some "User" |};
     ChatwootWebhook.contact :=
       Some {| ChatwootWebhook.identifier := Some "alice" |} |}.

Definition outgoing_ticket_request : ChatwootHandler.request :=
  {| ChatwootHandler.method := "POST";
     ChatwootHandler.body :=
       {| ChatwootHandler.event := Some "message_created";
          ChatwootHandler.message :=
            Some {| ChatwootHandler.message_type := Some "outgoing";
                    ChatwootHandler.content := Some "Respuesta";
                    ChatwootHandler.sender :=
                      Some {| ChatwootHandler.type := Some "agent" |} |};
          ChatwootHandler.conversation := Some {| ChatwootHandler.id := 42 |} |} |}.

End Sample.

(** * Further notions

    What the statements about the rest of the handlers speak of. *)

Section further_notions.
Import ProcessQueue.

(** The pending rows of the queue that are due at [now]. *)
Definition pending_due (now : Z) (table : list Queue.entry) : list Queue.entry :=
  filter (λ n, Queue.status n = pending ∧ (Queue.scheduled_for n ≤ now)%Z) table.

(** [r'] is [r] in everything but its status and its sent_at. *)
Definition same_notification (r r' : Queue.entry) : Prop :=
  Queue.id r' = Queue.id r ∧ Queue.user_id r' = Queue.user_id r ∧
  Queue.title r' = Queue.title r ∧ Queue.body r' = Queue.body r ∧
  Queue.data r' = Queue.data r ∧ Queue.priority r' = Queue.priority r ∧
  Queue.category r' = Queue.category r ∧
  Queue.scheduled_for r' = Queue.scheduled_for r.

(** One queue row before and after a request that claimed [ids]. *)
Definition claimed_step (ids : list Z) (r r' : Queue.entry) : Prop :=
  r' = r ∨
  (Queue.id r ∈ ids ∧ same_notification r r' ∧ Queue.status r' ≠ pending).

(** The distinct elements of a list, in the order they first appear. *)
Definition first_seen (users : list string) : list string :=
  foldl (λ seen u, if decide (u ∈ seen) then seen else seen ++ [u]) [] users.

(** The tables no handler but the ticketing one writes to, and the tables
    the ticketing handler does not write to. *)
Definition same_chat_tables (db db' : database) : Prop :=
  consultations db' = consultations db ∧ profiles db' = profiles db ∧
  consultation_messages db' = consultation_messages db.

Definition same_push_tables (db db' : database) : Prop :=
  notification_queue db' = notification_queue db ∧
  profile_push_tokens db' = profile_push_tokens db ∧
  consultations db' = consultations db ∧ profiles db' = profiles db.
End further_notions.

Section webhook_further_notions.
Import ChatwootWebhook.

(** What the handler does once it has a user id: the token query, its two
    exits, and the part from the gateway call on. *)
Definition from_gateway_or_exit (w : world) (req : body_t) (db : database)
    (userId : string) : outcome :=
  match tokensError w with
  | Some message => (res_status_json 500 [("error", JStr message)], db, [])
  | None =>
      if decide (length (fetch_tokens userId db) = 0)
      then (res_json [("ok", JBool true); ("message", JStr "No active tokens")], db, [])
      else from_gateway w req db userId
  end.

(** One token row before and after a request that sent to [tokens]. *)
Definition deactivation_step (tokens : list string) (r r' : Token.row) : Prop :=
  r' = r ∨ (r' = Token.deactivated r ∧ Token.expo_push_token r ∈ tokens).
End webhook_further_notions.

(** More sample data. *)
Module Cases.

(** Two entries for alice, and a gateway that is down. *)
Definition gateway_down : ProcessQueue.world :=
  {| ProcessQueue.startTime := 1000;
     ProcessQueue.fetchTime := 100;
     ProcessQueue.fetchError := None;
     ProcessQueue.updateError := None;
     ProcessQueue.tokensError := None;
     ProcessQueue.gateway := (λ _, NetworkError "ECONNREFUSED");
     ProcessQueue.deactivateFails := false;
     ProcessQueue.sentTime := 1500;
     ProcessQueue.finalUpdateError := None;
     ProcessQueue.endTime := 2000 |}.

(** A request whose pending query fails. *)
Definition fetch_down : ProcessQueue.world :=
  {| ProcessQueue.startTime := 1000;
     ProcessQueue.fetchTime := 100;
     ProcessQueue.fetchError := Some "connection refused";
     ProcessQueue.updateError := None;
     ProcessQueue.tokensError := None;
     ProcessQueue.gateway := (λ _, Delivered None);
     ProcessQueue.deactivateFails := false;
     ProcessQueue.sentTime := 1500;
     ProcessQueue.finalUpdateError := None;
     ProcessQueue.endTime := 2000 |}.

(** A chat message without a contact. *)
Definition anonymous_request : ChatwootWebhook.body_t :=
  {| ChatwootWebhook.event := Some "message_created";
     ChatwootWebhook.message_type := Some "incoming";
     ChatwootWebhook.content := Some "Hola";
     ChatwootWebhook.sender := Some {| ChatwootWebhook.type := Some "User" |};
     ChatwootWebhook.contact := None |}.

(** A chat message from bob, who has no active token, and one from alice
    with no text. *)
Definition bob_request : ChatwootWebhook.body_t :=
  {| ChatwootWebhook.event := Some "message_created";
     ChatwootWebhook.message_type := Some "incoming";
     ChatwootWebhook.content := Some "Hola";
     ChatwootWebhook.sender := Some {| ChatwootWebhook.type := Some "User" |};
     ChatwootWebhook.contact :=
       Some {| ChatwootWebhook.identifier := Some "bob" |} |}.

Definition empty_request : ChatwootWebhook.body_t :=
  {| ChatwootWebhook.event := Some "message_created";
     ChatwootWebhook.message_type := Some "incoming";
     ChatwootWebhook.content := Some "";
     ChatwootWebhook.sender := Some {| ChatwootWebhook.type := Some "User" |};
     ChatwootWebhook.contact :=
       Some {| ChatwootWebhook.identifier := Some "alice" |} |}.

(** Gateways of the webhook receiver: one that answers 503, and one that
    returns a ticket too many, the extra one for an unregistered device. *)
Definition hook_unavailable : ChatwootWebhook.world :=
  {| ChatwootWebhook.startTime := 10;
     ChatwootWebhook.tokensError := None;
     ChatwootWebhook.messageTime := 11;
     ChatwootWebhook.gateway := HttpError 503 "Service Unavailable";
     ChatwootWebhook.deactivateFails := (λ _, false);
     ChatwootWebhook.endTime := 25 |}.

Definition hook_extra_ticket : ChatwootWebhook.world :=
  {| ChatwootWebhook.startTime := 10;
     ChatwootWebhook.tokensError := None;
     ChatwootWebhook.messageTime := 11;
     ChatwootWebhook.gateway :=
       Delivered (Some [Sample.ticket_error "DeviceNotRegistered"; Sample.ticket_ok;
                        Sample.ticket_error "DeviceNotRegistered"]);
     ChatwootWebhook.deactivateFails := (λ _, false);
     ChatwootWebhook.endTime := 25 |}.

(** Two consultations linked to the same conversation. *)
Definition db_ambiguous : database :=
  {| notification_queue := [];
     profile_push_tokens := [];
     consultations :=
       [{| Consultation.id := 7; Consultation.user_id := "alice";
           Consultation.consultant_id := Some "carol";
           Consultation.chatwoot_conversation_id := "42" |};
        {| Consultation.id := 8; Consultation.user_id := "bob";
           Consultation.consultant_id := None;
           Consultation.chatwoot_conversation_id := "42" |}];
     profiles := [];
     consultation_messages := [] |}.

(** A consultation without a consultant, and an author profile. *)
Definition db_unassigned : database :=
  {| notification_queue := [];
     profile_push_tokens := [];
     consultations :=
       [{| Consultation.id := 9; Consultation.user_id := "bob";
           Consultation.consultant_id := None;
           Consultation.chatwoot_conversation_id := "42" |}];
     profiles := [{| Profile.id := "dave"; Profile.role := "reader" |};
                  {| Profile.id := "erin"; Profile.role := "author" |}];
     consultation_messages := [] |}.

Definition get_request : ChatwootHandler.request :=
  {| ChatwootHandler.method := "GET";
     ChatwootHandler.body := ChatwootHandler.body Sample.agent_request |}.

End Cases.

(** * Properties *)

(** ** The chunk loop *)

Section chunk_loop_facts.
Import ProcessQueue.
Context {S : Type} (body : nat → list Msg.t → S → S).

Lemma chunk_loop_step messages i (s : S) :
  chunk_loop body messages i s =
  if decide (i < length messages)
  then chunk_loop body messages (i + CHUNK_SIZE)
         (body i (slice i (i + CHUNK_SIZE) messages) s)
  else s.
Proof.
  rewrite chunk_loop_equation_1 at 1.
  destruct (decide (i < length messages)); reflexivity.
Qed.

End chunk_loop_facts.

Section chunks_facts.
Import ProcessQueue.

(** Induction along the loop index. *)
Lemma chunk_index_ind (messages : list Msg.t) (P : nat → Prop) :
  (∀ i, length messages ≤ i → P i) →
  (∀ i, i < length messages → P (i + CHUNK_SIZE) → P i) →
  ∀ i, P i.
Proof.
  intros Hstop Hstep i.
  remember (length messages - i) as n eqn:Hn.
  revert i Hn. induction (lt_wf n) as [n _ IH]. intros i ->.
  destruct (decide (i < length messages)) as [Hi|Hi].
  - apply Hstep; [done|].
    apply (IH (length messages - (i + CHUNK_SIZE))); [unfold CHUNK_SIZE; lia|done].
  - apply Hstop. lia.
Qed.

Lemma collect_acc messages i acc :
  chunk_loop (λ _ chunk acc, acc ++ [chunk]) messages i acc =
  acc ++ chunks_from messages i.
Proof.
  unfold chunks_from. revert acc.
  induction i as [i Hi|i Hi IH] using (chunk_index_ind messages); intros acc;
    rewrite (chunk_loop_step _ messages i acc), (chunk_loop_step _ messages i []);
    destruct (decide (i < length messages)); try lia.
  - by rewrite app_nil_r.
  - rewrite IH, (IH ([] ++ _)). by rewrite <- !app_assoc.
Qed.

Lemma chunks_from_step messages i :
  chunks_from messages i =
  if decide (i < length messages)
  then slice i (i + CHUNK_SIZE) messages :: chunks_from messages (i + CHUNK_SIZE)
  else [].
Proof.
  unfold chunks_from at 1. rewrite chunk_loop_step.
  destruct (decide (i < length messages)); [|done].
  by rewrite collect_acc.
Qed.

(** The loop is its body folded over the chunks. *)
Lemma chunk_loop_run {S} (body : nat → list Msg.t → S → S) messages i s :
  chunk_loop body messages i s = run_chunks body i (chunks_from messages i) s.
Proof.
  revert s. induction i using (chunk_index_ind messages); intros s.
  - rewrite chunk_loop_step, chunks_from_step.
    destruct (decide (i < length messages)); [lia|done].
  - rewrite chunk_loop_step, chunks_from_step.
    destruct (decide (i < length messages)); [|lia].
    simpl. apply IHi.
Qed.

Lemma slice_length {A} from to (l : list A) : length (slice from to l) ≤ to - from.
Proof. unfold slice. rewrite length_take. lia. Qed.

Lemma concat_chunks_from messages i :
  concat (chunks_from messages i) = drop i messages.
Proof.
  induction i using (chunk_index_ind messages); rewrite chunks_from_step.
  - destruct (decide (i < length messages)); [lia|].
    by rewrite drop_ge.
  - destruct (decide (i < length messages)); [|lia].
    simpl. rewrite IHi. unfold slice.
    replace (i + CHUNK_SIZE - i) with CHUNK_SIZE by lia.
    rewrite <- (take_drop CHUNK_SIZE (drop i messages)) at 2.
    by rewrite drop_drop.
Qed.

Lemma chunks_from_bounded messages i :
  Forall (λ chunk, 0 < length chunk ≤ CHUNK_SIZE) (chunks_from messages i).
Proof.
  induction i using (chunk_index_ind messages); rewrite chunks_from_step.
  - destruct (decide (i < length messages)); [lia|constructor].
  - destruct (decide (i < length messages)); [|lia].
    constructor; [|done]. unfold slice.
    rewrite length_take, length_drop. unfold CHUNK_SIZE. lia.
Qed.

Lemma chunks_eq messages : chunks messages = chunks_from messages 0.
Proof. reflexivity. Qed.
End chunks_facts.

(** ** Delivery *)

Section delivery_facts.
Import ProcessQueue.
Variable w : world.

Lemma device_not_registered_spec ticket :
  device_not_registered ticket = true ↔
  Ticket.status ticket = "error" ∧
  (Ticket.details ticket ≫= Ticket.error) = Some "DeviceNotRegistered".
Proof.
  unfold device_not_registered.
  rewrite andb_true_iff, !bool_decide_eq_true. done.
Qed.

Lemma detect_invalid_spec chunk tickets j acc token :
  token ∈ detect_invalid chunk j tickets acc ↔
  token ∈ acc ∨
  ∃ i ticket m,
    tickets !! i = Some ticket ∧ chunk !! (j + i) = Some m ∧
    device_not_registered ticket = true ∧ Msg.to m = token.
Proof.
  revert j acc. induction tickets as [|ticket rest IH]; intros j acc; simpl.
  - split; [auto|]. intros [?|(i & ? & ? & Hi & _)]; [done|].
    by rewrite lookup_nil in Hi.
  - destruct (device_not_registered ticket) eqn:Hd.
    + destruct (chunk !! j) as [m|] eqn:Hm.
      * rewrite IH. rewrite elem_of_union, elem_of_singleton. split.
        -- intros [[->|?]|(i & t & m' & Hi & Hm' & Hd' & Ht)]; auto.
           ++ right. exists 0, ticket, m. by rewrite Nat.add_0_r.
           ++ right. exists (S i), t, m'.
              by replace (j + S i) with (S j + i) by lia.
        -- intros [?|(i & t & m' & Hi & Hm' & Hd' & Ht)]; auto.
           destruct i as [|i]; simpl in Hi.
           ++ rewrite Nat.add_0_r in Hm'. left. left. congruence.
           ++ right. exists i, t, m'.
              by replace (S j + i) with (j + S i) by lia.
      * split; [auto|]. intros [?|(i & t & m' & Hi & Hm' & _)]; [done|].
        apply lookup_ge_None in Hm. apply lookup_lt_Some in Hm'. lia.
    + rewrite IH. split.
      * intros [?|(i & t & m' & Hi & Hm' & Hd' & Ht)]; auto.
        right. exists (S i), t, m'.
        by replace (j + S i) with (S j + i) by lia.
      * intros [?|(i & t & m' & Hi & Hm' & Hd' & Ht)]; auto.
        destruct i as [|i]; simpl in Hi.
        -- congruence.
        -- right. exists i, t, m'.
           by replace (S j + i) with (j + S i) by lia.
Qed.

Lemma detect_invalid_unregistered chunk tickets acc token :
  token ∈ detect_invalid chunk 0 tickets acc ↔
  token ∈ acc ∨ position_unregistered chunk tickets token.
Proof.
  rewrite detect_invalid_spec. unfold position_unregistered. split.
  - intros [?|(j & t & m & Ht & Hm & Hd & Hto)]; [by left|right].
    apply device_not_registered_spec in Hd as [??]. by exists j, t, m.
  - intros [?|(j & t & m & Ht & Hm & Hs & Hd & Hto)]; [by left|right].
    exists j, t, m. split_and!; try done. by apply device_not_registered_spec.
Qed.
End delivery_facts.

Section deliver_facts.
Import ProcessQueue.
Variable w : world.

Lemma chunk_number k : k * CHUNK_SIZE / CHUNK_SIZE = k.
Proof. apply Nat.div_mul. done. Qed.

Lemma run_send_chunks cs : ∀ k d,
  let d' := run_chunks (send_chunk w) (k * CHUNK_SIZE) cs d in
  totalSent d' = totalSent d + sent_count w k cs ∧
  sends d' = sends d ++ (GatewaySend <$> cs) ∧
  ∀ token, token ∈ invalidTokens d' ↔
           token ∈ invalidTokens d ∨ reported_unregistered w k cs token.
Proof.
  induction cs as [|c cs IH]; intros k d; simpl.
  - split_and!; [lia|by rewrite app_nil_r|].
    intros token. split; [auto|].
    intros [?|(n & ? & ? & Hn & _)]; [done|]. by rewrite lookup_nil in Hn.
  - replace (k * CHUNK_SIZE + CHUNK_SIZE) with (S k * CHUNK_SIZE) by lia.
    destruct (IH (S k) (send_chunk w (k * CHUNK_SIZE) c d)) as (Ht & Hs & Hi).
    rewrite Ht, Hs. clear Ht Hs.
    unfold send_chunk in *. rewrite chunk_number in *.
    split_and!.
    + destruct (gateway w k); simpl; lia.
    + destruct (gateway w k); simpl; by rewrite <- app_assoc.
    + intros token. rewrite Hi. clear Hi. split.
      * intros [Hin|(n & chunk & tickets & Hn & Hg & Hp)].
        -- destruct (gateway w k) as [| | |[tickets|]] eqn:Hg; simpl in Hin; auto.
           apply detect_invalid_unregistered in Hin as [?|?]; auto.
           right. exists 0, c, tickets. by rewrite Nat.add_0_r.
        -- right. exists (S n), chunk, tickets.
           by replace (k + S n) with (S k + n) by lia.
      * intros [Hin|(n & chunk & tickets & Hn & Hg & Hp)].
        -- left. destruct (gateway w k) as [| | |[tickets|]]; simpl; auto.
           apply detect_invalid_unregistered. auto.
        -- destruct n as [|n]; simpl in Hn.
           ++ left. rewrite Nat.add_0_r in Hg. rewrite Hg. simpl.
              apply detect_invalid_unregistered. right. congruence.
           ++ right. exists n, chunk, tickets.
              by replace (S k + n) with (k + S n) by lia.
Qed.

Lemma deliver_run messages :
  deliver w messages =
  run_chunks (send_chunk w) (0 * CHUNK_SIZE) (chunks messages)
    {| totalSent := 0; invalidTokens := ∅; sends := [] |}.
Proof. unfold deliver. by rewrite chunk_loop_run. Qed.

Lemma deliver_totalSent messages :
  totalSent (deliver w messages) = sent_count w 0 (chunks messages).
Proof.
  rewrite deliver_run. by destruct (run_send_chunks (chunks messages) 0
    {| totalSent := 0; invalidTokens := ∅; sends := [] |}) as (-> & _).
Qed.

Lemma deliver_sends messages :
  sends (deliver w messages) = GatewaySend <$> chunks messages.
Proof.
  rewrite deliver_run. by destruct (run_send_chunks (chunks messages) 0
    {| totalSent := 0; invalidTokens := ∅; sends := [] |}) as (_ & -> & _).
Qed.

Lemma deliver_invalidTokens messages token :
  token ∈ invalidTokens (deliver w messages) ↔
  reported_unregistered w 0 (chunks messages) token.
Proof.
  rewrite deliver_run. destruct (run_send_chunks (chunks messages) 0
    {| totalSent := 0; invalidTokens := ∅; sends := [] |}) as (_ & _ & ->).
  simpl. split; [|by right].
  intros [Hin|?]; [|done]. by apply not_elem_of_empty in Hin.
Qed.
End deliver_facts.

(** C6.  Splitting the message list into the chunks of the delivery loop and
    concatenating them, in the order they are sent, gives back the message
    list; no chunk holds more than 100 messages ([CHUNK_SIZE]) and none is
    empty.  The gateway calls of the loop are exactly these chunks, in this
    order, whatever the gateway answers. *)
Theorem chunk_split_roundtrip (w : ProcessQueue.world) (messages : list Msg.t) :
  concat (ProcessQueue.chunks messages) = messages ∧
  Forall (λ chunk, 0 < length chunk ≤ 100) (ProcessQueue.chunks messages) ∧
  ProcessQueue.CHUNK_SIZE = 100 ∧
  ProcessQueue.sends (ProcessQueue.deliver w messages) =
    GatewaySend <$> ProcessQueue.chunks messages.
Proof.
  split_and!.
  - rewrite chunks_eq, concat_chunks_from. apply drop_0.
  - rewrite chunks_eq. apply chunks_from_bounded.
  - reflexivity.
  - apply deliver_sends.
Qed.

(** ** The datastore operations *)

Section datastore_facts.
Context {A : Type} (P : A → Prop) `{!∀ r, Decision (P r)} (f : A → A).

Lemma elem_of_update_where (rows : list A) r' :
  r' ∈ update_where P f rows ↔
  ∃ r, r ∈ rows ∧ r' = (if decide (P r) then f r else r).
Proof.
  unfold update_where. rewrite list_elem_of_fmap.
  split; intros (r & ? & ?); by exists r.
Qed.

Lemma update_where_hit (rows : list A) r :
  r ∈ rows → P r → f r ∈ update_where P f rows.
Proof.
  intros Hr HP. apply elem_of_update_where. exists r. split; [done|].
  by rewrite decide_True.
Qed.

Lemma elem_of_where (rows : list A) r : r ∈ where_ P rows ↔ P r ∧ r ∈ rows.
Proof. unfold where_. apply list_elem_of_filter. Qed.
End datastore_facts.

Section queue_datastore_facts.
Import ProcessQueue.

Lemma elem_of_fetch_pending now table n :
  n ∈ fetch_pending now table →
  n ∈ table ∧ Queue.status n = pending ∧ (Queue.scheduled_for n ≤ now)%Z.
Proof.
  unfold fetch_pending, limit, order. intros Hn.
  apply (subseteq_take BATCH_SIZE) in Hn.
  rewrite merge_sort_Permutation in Hn.
  apply elem_of_where in Hn as [? Hn]. apply elem_of_where in Hn as [? ?]. done.
Qed.

Lemma mark_sent_rows now ids db r :
  r ∈ notification_queue (mark_sent now ids db) → Queue.id r ∈ ids →
  Queue.status r = sent ∧ Queue.sent_at r = Some now.
Proof.
  simpl. intros (r0 & Hr0 & ->)%elem_of_update_where Hid.
  destruct (decide (Queue.id r0 ∈ ids)); [done|]. done.
Qed.

Lemma mark_processing_rows ids db r :
  r ∈ notification_queue (mark_processing ids db) → Queue.id r ∈ ids →
  Queue.status r = processing.
Proof.
  simpl. intros (r0 & Hr0 & ->)%elem_of_update_where Hid.
  destruct (decide (Queue.id r0 ∈ ids)); [done|]. done.
Qed.
End queue_datastore_facts.

(** ** The four ways a non-empty batch can end *)

Section after_claim_facts.
Import ProcessQueue.

Lemma after_claim_batch_end w notifications db :
  notifications ≠ [] → batch_end w notifications db (after_claim w notifications db).
Proof.
  intros Hne. unfold after_claim.
  destruct (decide (length notifications = 0)) as [Hz|_].
  { by apply length_zero_iff_nil in Hz. }
  destruct (updateError w) as [message|] eqn:Hu.
  { by apply update_failed. }
  destruct (tokensError w) as [message|] eqn:Ht.
  { by apply tokens_failed. }
  change (expand _ _) with (prepared notifications db).
  destruct (decide (length (prepared notifications db) = 0)) as [Hz|Hz].
  { apply nothing_to_send; try done. by apply length_zero_iff_nil. }
  rewrite (deliver_sends w (prepared notifications db)).
  apply delivered; try done.
  { intros Hnil. by rewrite Hnil in Hz. }
  destruct (decide (0 < size (invalidTokens (deliver w (prepared notifications db)))));
    [right|left]; split_and!; try done.
  lia.
Qed.
End after_claim_facts.

Section finalize_facts.
Import ProcessQueue.

Lemma queue_after_deactivate tokens db :
  notification_queue (deactivate_tokens tokens db) = notification_queue db.
Proof. reflexivity. Qed.

(** The final update, applied to a batch that was marked processing. *)
Lemma marked_sent_after_processing now (rows : list Queue.entry) db db2 :
  notification_queue db2 = notification_queue (mark_processing (Queue.id <$> rows) db) →
  (∀ n, n ∈ rows → n ∈ notification_queue db) →
  let db3 := mark_sent now (Queue.id <$> rows) db2 in
  (∀ n, n ∈ rows → Queue.with_status_sent_at sent now n ∈ notification_queue db3) ∧
  (∀ r, r ∈ notification_queue db3 → Queue.id r ∈ Queue.id <$> rows →
        Queue.status r = sent ∧ Queue.sent_at r = Some now).
Proof.
  intros Hq Hin db3. split.
  - intros n Hn.
    assert (Queue.id n ∈ Queue.id <$> rows) as Hid by (by apply list_elem_of_fmap_2).
    change (Queue.with_status_sent_at sent now n)
      with (Queue.with_status_sent_at sent now (Queue.with_status processing n)).
    unfold db3. simpl. rewrite Hq. simpl.
    apply update_where_hit; [|done].
    by apply update_where_hit; [apply Hin|].
  - intros r. apply mark_sent_rows.
Qed.
End finalize_facts.

(** C1.  For a request that claims a non-empty batch and runs to its normal
    response (status 200), the last effect of the request is the bulk update
    of all the claimed ids to status sent with a sent_at timestamp, whatever
    the gateway answered and also when no message was prepared at all; when
    the datastore carries that update out, every claimed entry is in the
    table with status sent and that timestamp, and so is every row with a
    claimed id. *)
Theorem finalization_marks_sent (w : ProcessQueue.world) (db : database) :
  let rows := claimed w db in
  let o := ProcessQueue.process_queue w db in
  rows ≠ [] →
  status_code (response_of o) = 200%Z →
  last (effects_of o) =
    Some (UpdateQueueStatus sent (Some (ProcessQueue.sentTime w)) (Queue.id <$> rows)) ∧
  (ProcessQueue.finalUpdateError w = None →
   (∀ n, n ∈ rows →
      Queue.with_status_sent_at sent (ProcessQueue.sentTime w) n
        ∈ notification_queue (database_of o)) ∧
   (∀ r, r ∈ notification_queue (database_of o) →
      Queue.id r ∈ Queue.id <$> rows →
      Queue.status r = sent ∧ Queue.sent_at r = Some (ProcessQueue.sentTime w))).
Proof.
  intros rows o Hne Hok. subst o. unfold ProcessQueue.process_queue in *.
  unfold claimed in rows. subst rows.
  destruct (ProcessQueue.fetchError w); [done|].
  set (rows := ProcessQueue.fetch_pending _ _) in *.
  assert (∀ n, n ∈ rows → n ∈ notification_queue db) as Hin.
  { intros n Hn. by apply elem_of_fetch_pending in Hn as (? & _). }
  pose proof (after_claim_batch_end w rows db Hne) as Hend.
  destruct Hend as [message Hu|message Hu Ht|Hu Ht Hm|db2 evd Hu Ht Hm Hd];
    try discriminate Hok; unfold response_of, database_of, effects_of; simpl.
  - split; [done|]. intros ->.
    by apply (marked_sent_after_processing (ProcessQueue.sentTime w) rows db
                (ProcessQueue.mark_processing (Queue.id <$> rows) db)).
  - split.
    { rewrite app_comm_cons, !app_assoc. apply last_snoc. }
    intros ->.
    apply (marked_sent_after_processing (ProcessQueue.sentTime w) rows db db2); [|done].
    destruct Hd as [(_ & -> & _)|(_ & -> & _)]; [done|].
    by destruct (ProcessQueue.deactivateFails w).
Qed.

Lemma finalization_marks_sent_witness :
  let w := Sample.world in
  let rows := claimed w Sample.db in
  let o := ProcessQueue.process_queue w Sample.db in
  last (effects_of o) =
    Some (UpdateQueueStatus sent (Some (ProcessQueue.sentTime w)) (Queue.id <$> rows)) ∧
  (ProcessQueue.finalUpdateError w = None →
   (∀ n, n ∈ rows →
      Queue.with_status_sent_at sent (ProcessQueue.sentTime w) n
        ∈ notification_queue (database_of o)) ∧
   (∀ r, r ∈ notification_queue (database_of o) →
      Queue.id r ∈ Queue.id <$> rows →
      Queue.status r = sent ∧ Queue.sent_at r = Some (ProcessQueue.sentTime w))).
Proof.
  apply (finalization_marks_sent Sample.world Sample.db).
  - vm_compute. discriminate.
  - vm_compute. reflexivity.
Defined.

Lemma filter_gateway_sends (cs : list (list Msg.t)) :
  filter (λ e, is_gateway_send e) (GatewaySend <$> cs) = GatewaySend <$> cs.
Proof.
  induction cs as [|c cs IH]; [done|].
  rewrite fmap_cons, filter_cons_True by done. by rewrite IH.
Qed.

(** C5.  When a batch reaches delivery, every chunk is sent to the gateway,
    in order, whatever the earlier calls came back with; the sent count of
    the response is the total size of the chunks whose call was delivered (a
    call that ends in a network error, a non-success status or an unreadable
    body adds nothing), and the response is a 200 with ok: true. *)
Theorem partial_failure_tolerated (w : ProcessQueue.world)
    (notifications : list Queue.entry) (db : database) :
  let o := ProcessQueue.after_claim w notifications db in
  let cs := ProcessQueue.chunks (prepared notifications db) in
  ProcessQueue.updateError w = None →
  ProcessQueue.tokensError w = None →
  prepared notifications db ≠ [] →
  status_code (response_of o) = 200%Z ∧
  get_field "ok" (payload (response_of o)) = Some (JBool true) ∧
  get_field "sent" (payload (response_of o)) = Some (JNum (Z.of_nat (sent_count w 0 cs))) ∧
  filter (λ e, is_gateway_send e) (effects_of o) = GatewaySend <$> cs.
Proof.
  intros o cs Hu Ht Hm. subst o cs.
  assert (notifications ≠ []) as Hne by (by intros ->).
  destruct (after_claim_batch_end w notifications db Hne)
    as [message Hu'|message Hu' Ht'|Hu' Ht' Hm'|db2 evd Hu' Ht' Hm' Hd];
    try congruence.
  unfold response_of, effects_of. simpl.
  split_and!; try done.
  - by rewrite deliver_totalSent.
  - rewrite filter_cons_False by (simpl; tauto).
    rewrite !filter_app, filter_gateway_sends.
    assert (filter (λ e, is_gateway_send e) evd = []) as ->.
    { by destruct Hd as [(_ & _ & ->)|(_ & _ & ->)]. }
    simpl. apply app_nil_r.
Qed.

Lemma partial_failure_tolerated_witness :
  let w := Sample.world_flaky in
  let notifications := claimed w Sample.db_bulk in
  let o := ProcessQueue.after_claim w notifications Sample.db_bulk in
  let cs := ProcessQueue.chunks (prepared notifications Sample.db_bulk) in
  status_code (response_of o) = 200%Z ∧
  get_field "ok" (payload (response_of o)) = Some (JBool true) ∧
  get_field "sent" (payload (response_of o)) = Some (JNum (Z.of_nat (sent_count w 0 cs))) ∧
  filter (λ e, is_gateway_send e) (effects_of o) = GatewaySend <$> cs.
Proof.
  apply (partial_failure_tolerated Sample.world_flaky
           (claimed Sample.world_flaky Sample.db_bulk) Sample.db_bulk).
  - reflexivity.
  - reflexivity.
  - vm_compute. discriminate.
Defined.

(** The example of the partial failure: three chunks, the second one answered
    with HTTP 500; the 100 + 50 messages of the first and third count as
    sent and the response reports ok: true. *)
Example second_chunk_of_three_fails :
  let o := ProcessQueue.process_queue Sample.world_flaky Sample.db_bulk in
  length <$> ProcessQueue.chunks
    (prepared (claimed Sample.world_flaky Sample.db_bulk) Sample.db_bulk) = [100; 100; 50] ∧
  get_field "sent" (payload (response_of o)) = Some (JNum 150) ∧
  get_field "ok" (payload (response_of o)) = Some (JBool true).
Proof. vm_compute. done. Qed.

(** ** Rows that are no longer pending stay out of every later batch *)

Section held_facts.
Import ProcessQueue.
Variable ids : list Z.

Lemma held_update (P : Queue.entry → Prop) `{!∀ r, Decision (P r)}
    (f : Queue.entry → Queue.entry) db :
  (∀ r, Queue.id (f r) = Queue.id r ∧ Queue.status (f r) ≠ pending) →
  held ids db →
  held ids (set_notification_queue (update_where P f (notification_queue db)) db).
Proof.
  intros Hf Hheld r. simpl. intros (r0 & Hr0 & ->)%elem_of_update_where.
  destruct (decide (P r0)).
  - intros _. apply Hf.
  - by apply Hheld.
Qed.

Lemma held_mark_processing ids' db : held ids db → held ids (mark_processing ids' db).
Proof. apply held_update. done. Qed.

Lemma held_mark_sent now ids' db : held ids db → held ids (mark_sent now ids' db).
Proof. apply held_update. done. Qed.

Lemma held_apply_unless {E} (failure : option E) f db :
  (held ids db → held ids (f db)) → held ids db → held ids (apply_unless failure f db).
Proof. by destruct failure. Qed.

Lemma held_process_queue w db :
  held ids db → held ids (database_of (process_queue w db)).
Proof.
  intros Hheld. unfold process_queue.
  destruct (fetchError w); [done|].
  set (rows := fetch_pending _ _).
  destruct (decide (rows = [])) as [Hnil|Hne].
  { rewrite Hnil. done. }
  destruct (after_claim_batch_end w rows db Hne)
    as [message Hu|message Hu Ht|Hu Ht Hm|db2 evd Hu Ht Hm Hd];
    unfold database_of; simpl.
  - done.
  - by apply held_mark_processing.
  - apply held_apply_unless; [apply held_mark_sent|]. by apply held_mark_processing.
  - apply held_apply_unless; [apply held_mark_sent|].
    assert (held ids (mark_processing (Queue.id <$> rows) db)) as H1
      by (by apply held_mark_processing).
    destruct Hd as [(_ & -> & _)|(_ & -> & _)]; [done|].
    by destruct (deactivateFails w).
Qed.

Lemma held_not_claimed w db r :
  held ids db → r ∈ claimed w db → Queue.id r ∉ ids.
Proof.
  intros Hheld Hr Hid. unfold claimed in Hr.
  destruct (fetchError w); [by apply elem_of_nil in Hr|].
  apply elem_of_fetch_pending in Hr as (Hin & Hp & _).
  by apply (Hheld r).
Qed.

Lemma held_later_claims ws : ∀ db,
  held ids db →
  Forall (λ batch, ∀ r, r ∈ batch → Queue.id r ∉ ids) (later_claims ws db).
Proof.
  induction ws as [|w ws IH]; intros db Hheld; simpl; constructor.
  - intros r. by apply held_not_claimed.
  - apply IH. by apply held_process_queue.
Qed.
End held_facts.

(** C10.  When the final update of a non-empty batch is refused by the
    datastore, the response is still a 200 with ok: true, the number of
    claimed entries as processed and the number of delivered messages as
    sent; every row with a claimed id is left in status processing; and no
    later request, whatever happens in it, claims any of these ids again,
    because the pending query only returns pending rows and no update of the
    processor writes status pending. *)
Theorem failed_final_update_strands_batch (w : ProcessQueue.world) (db : database)
    (message : string) (ws : list ProcessQueue.world) :
  let rows := claimed w db in
  let o := ProcessQueue.process_queue w db in
  rows ≠ [] →
  ProcessQueue.updateError w = None →
  ProcessQueue.tokensError w = None →
  ProcessQueue.finalUpdateError w = Some message →
  (status_code (response_of o) = 200%Z ∧
   get_field "ok" (payload (response_of o)) = Some (JBool true) ∧
   get_field "processed" (payload (response_of o)) =
     Some (JNum (Z.of_nat (length rows))) ∧
   get_field "sent" (payload (response_of o)) =
     Some (JNum (Z.of_nat (sent_count w 0 (ProcessQueue.chunks (prepared rows db)))))) ∧
  (∀ n, n ∈ rows → Queue.with_status processing n ∈ notification_queue (database_of o)) ∧
  (∀ r, r ∈ notification_queue (database_of o) → Queue.id r ∈ Queue.id <$> rows →
        Queue.status r = processing) ∧
  Forall (λ batch, ∀ r, r ∈ batch → Queue.id r ∉ Queue.id <$> rows)
         (later_claims ws (database_of o)).
Proof.
  intros rows o Hne Hu Ht Hf.
  assert (ProcessQueue.fetchError w = None) as Hfetch.
  { unfold rows, claimed in Hne. by destruct (ProcessQueue.fetchError w). }
  assert (rows = ProcessQueue.fetch_pending (ProcessQueue.fetchTime w)
                   (notification_queue db)) as Hrows.
  { unfold rows, claimed. by rewrite Hfetch. }
  assert (o = ProcessQueue.after_claim w rows db) as Ho.
  { unfold o, ProcessQueue.process_queue. by rewrite Hfetch, Hrows. }
  assert (∀ n, n ∈ rows → n ∈ notification_queue db) as Hin.
  { intros n. rewrite Hrows. intros Hn. by apply elem_of_fetch_pending in Hn as (? & _). }
  assert (notification_queue (database_of o) =
          notification_queue (ProcessQueue.mark_processing (Queue.id <$> rows) db) ∧
          status_code (response_of o) = 200%Z ∧
          get_field "ok" (payload (response_of o)) = Some (JBool true) ∧
          get_field "processed" (payload (response_of o)) =
            Some (JNum (Z.of_nat (length rows))) ∧
          get_field "sent" (payload (response_of o)) =
            Some (JNum (Z.of_nat (sent_count w 0
                     (ProcessQueue.chunks (prepared rows db)))))) as (Hq & Hres).
  { rewrite Ho. clear Ho Hrows.
    destruct (after_claim_batch_end w rows db Hne)
      as [m Hu'|m Hu' Ht'|Hu' Ht' Hm|db2 evd Hu' Ht' Hm Hd]; try congruence;
      unfold response_of, database_of; simpl; rewrite Hf; simpl.
    - rewrite Hm. done.
    - rewrite deliver_totalSent. split; [|done].
      destruct Hd as [(_ & -> & _)|(_ & -> & _)]; [done|].
      by destruct (ProcessQueue.deactivateFails w). }
  split; [done|]. split_and!.
  - intros n Hn. rewrite Hq. simpl.
    apply update_where_hit; [by apply Hin|]. by apply list_elem_of_fmap_2.
  - intros r. rewrite Hq. apply mark_processing_rows.
  - apply held_later_claims. intros r. rewrite Hq. intros Hr Hid.
    by rewrite (mark_processing_rows _ _ _ Hr Hid).
Qed.

Lemma failed_final_update_strands_batch_witness :
  let w := Sample.world_flaky in
  let db := Sample.db_bulk in
  let ws := [Sample.world; Sample.world_flaky] in
  let rows := claimed w db in
  let o := ProcessQueue.process_queue w db in
  (status_code (response_of o) = 200%Z ∧
   get_field "ok" (payload (response_of o)) = Some (JBool true) ∧
   get_field "processed" (payload (response_of o)) =
     Some (JNum (Z.of_nat (length rows))) ∧
   get_field "sent" (payload (response_of o)) =
     Some (JNum (Z.of_nat (sent_count w 0 (ProcessQueue.chunks (prepared rows db)))))) ∧
  (∀ n, n ∈ rows → Queue.with_status processing n ∈ notification_queue (database_of o)) ∧
  (∀ r, r ∈ notification_queue (database_of o) → Queue.id r ∈ Queue.id <$> rows →
        Queue.status r = processing) ∧
  Forall (λ batch, ∀ r, r ∈ batch → Queue.id r ∉ Queue.id <$> rows)
         (later_claims ws (database_of o)).
Proof.
  apply (failed_final_update_strands_batch Sample.world_flaky Sample.db_bulk
           "connection reset" [Sample.world; Sample.world_flaky]).
  - vm_compute. discriminate.
  - reflexivity.
  - reflexivity.
  - reflexivity.
Defined.

(** After the refused update the 125 rows are all in status processing, and
    the next two requests find nothing to claim. *)
Example stranded_batch :
  let db' := database_of (ProcessQueue.process_queue Sample.world_flaky Sample.db_bulk) in
  Forall (λ r, Queue.status r = processing) (notification_queue db') ∧
  later_claims [Sample.world; Sample.world_flaky] db' = [[]; []].
Proof.
  split; [|by vm_compute].
  apply (bool_decide_unpack _). vm_compute. exact I.
Qed.

(** ** Rows only move forward *)

Section step_facts.

Global Instance token_step_refl : Reflexive token_step.
Proof. intros r. by left. Qed.

Global Instance token_step_trans : Transitive token_step.
Proof.
  intros r1 r2 r3 [->| ->] [->| ->]; unfold token_step; auto.
Qed.

Global Instance entry_step_refl : Reflexive entry_step.
Proof. intros e. split; [done|lia]. Qed.

Global Instance entry_step_trans : Transitive entry_step.
Proof. intros e1 e2 e3 [H1 H2] [H3 H4]. split; [congruence|lia]. Qed.

Global Instance advances_refl : Reflexive advances.
Proof. intros db. by split. Qed.

Global Instance advances_trans : Transitive advances.
Proof.
  intros db1 db2 db3 [H1 H2] [H3 H4]. split.
  - by etrans.
  - by etrans.
Qed.

Lemma update_where_Forall2 {A} (R : relation A) (P : A → Prop) `{!∀ r, Decision (P r)}
    (f : A → A) (rows : list A) :
  (∀ r, r ∈ rows → R r r) → (∀ r, r ∈ rows → P r → R r (f r)) →
  Forall2 R rows (update_where P f rows).
Proof.
  intros Hrefl Hf. unfold update_where. apply Forall2_fmap_r, Forall_Forall2_diag.
  apply Forall_forall. intros r Hr. simpl.
  destruct (decide (P r)); auto.
Qed.

Lemma deactivation_steps (P : Token.row → Prop) `{!∀ r, Decision (P r)} rows :
  Forall2 token_step rows (update_where P Token.deactivated rows).
Proof. apply update_where_Forall2; intros r _; [by left|by right]. Qed.

Lemma token_steps_inactive token db db' :
  Forall2 token_step (profile_push_tokens db) (profile_push_tokens db') →
  inactive token db → inactive token db'.
Proof.
  intros Hsteps Hin r' Hr' Htok.
  apply list_elem_of_lookup in Hr' as [i Hi].
  destruct (Forall2_lookup_r _ _ _ _ _ Hsteps Hi) as (r & Hr & [->| ->]).
  - apply (Hin r); [|done]. by apply list_elem_of_lookup_2 in Hr.
  - done.
Qed.

Lemma deactivate_token_inactive token db :
  inactive token (ChatwootWebhook.deactivate_token token db).
Proof.
  intros r. simpl. intros (r0 & _ & ->)%elem_of_update_where Htok.
  destruct (decide (Token.expo_push_token r0 = token)); [done|]. done.
Qed.

Lemma deactivate_tokens_inactive tokens token db :
  token ∈ tokens → inactive token (ProcessQueue.deactivate_tokens tokens db).
Proof.
  intros Hin r. simpl. intros (r0 & _ & ->)%elem_of_update_where Htok.
  destruct (decide (Token.expo_push_token r0 ∈ tokens)); [done|]. congruence.
Qed.
End step_facts.

(** ** Reconciliation in the webhook receiver *)

Section reconcile_facts.
Import ChatwootWebhook.
Variables (w : world) (messages : list Msg.t).

Lemma flags_cons_0 i ticket rest m :
  flags messages i (ticket :: rest) 0 m ↔
  messages !! i = Some m ∧ device_not_registered ticket = true.
Proof.
  unfold flags. rewrite Nat.add_0_r. simpl. split.
  - intros (t & [= <-] & ? & ?). done.
  - intros [? ?]. by exists ticket.
Qed.

Lemma flags_cons_S i ticket rest j m :
  flags messages i (ticket :: rest) (S j) m ↔ flags messages (S i) rest j m.
Proof.
  unfold flags. simpl. by replace (i + S j) with (S (i + j)) by lia.
Qed.

Lemma reconcile_spec tickets : ∀ i db issued,
  let '(db', issued', raised) := reconcile w messages i tickets db issued in
  Forall2 token_step (profile_push_tokens db) (profile_push_tokens db') ∧
  notification_queue db' = notification_queue db ∧
  consultation_messages db' = consultation_messages db ∧
  (∃ new, issued' = issued ++ new ∧
          ∀ e, e ∈ new ↔ ∃ j m, flags messages i tickets j m ∧ e = DeactivateTokens [Msg.to m]) ∧
  (∀ j m, flags messages i tickets j m → deactivateFails w (i + j) = false →
          inactive (Msg.to m) db').
Proof.
  induction tickets as [|ticket rest IH]; intros i db issued; simpl.
  - split_and!; try done.
    + exists []. split; [by rewrite app_nil_r|].
      intros e. split; [by intros ?%elem_of_nil|].
      intros (j & m & (t & Ht & _) & _). by rewrite lookup_nil in Ht.
    + intros j m (t & Ht & _). by rewrite lookup_nil in Ht.
  - destruct (device_not_registered ticket) eqn:Hd.
    + destruct (messages !! i) as [m0|] eqn:Hm0.
      * set (db1 := if deactivateFails w i then db
                    else deactivate_token (Msg.to m0) db).
        assert (Forall2 token_step (profile_push_tokens db) (profile_push_tokens db1)
                ∧ notification_queue db1 = notification_queue db
                ∧ consultation_messages db1 = consultation_messages db) as (H1 & H2 & H3).
        { unfold db1. destruct (deactivateFails w i); [done|].
          split_and!; try done. apply deactivation_steps. }
        specialize (IH (S i) db1 (issued ++ [DeactivateTokens [Msg.to m0]])).
        destruct (reconcile w messages (S i) rest db1 _) as [[db' issued'] raised].
        destruct IH as (IH1 & IH2 & IH3 & (new & -> & IH4) & IH5).
        split_and!.
        -- by etrans.
        -- congruence.
        -- congruence.
        -- exists (DeactivateTokens [Msg.to m0] :: new).
           split; [by rewrite <- app_assoc|].
           intros e. rewrite elem_of_cons, IH4. split.
           ++ intros [->|(j & m & Hf & ->)].
              ** exists 0, m0. by rewrite flags_cons_0.
              ** exists (S j), m. by rewrite flags_cons_S.
           ++ intros (j & m & Hf & ->). destruct j as [|j].
              ** left. apply flags_cons_0 in Hf as [Hf _]. congruence.
              ** right. exists j, m. by rewrite <- flags_cons_S.
        -- intros j m Hf Hok. destruct j as [|j].
           ++ apply flags_cons_0 in Hf as [Hf _].
              rewrite Nat.add_0_r in Hok.
              assert (m = m0) as -> by congruence.
              apply (token_steps_inactive _ db1); [done|].
              unfold db1. rewrite Hok. apply deactivate_token_inactive.
           ++ apply flags_cons_S in Hf. apply (IH5 j m); [done|].
              by replace (S i + j) with (i + S j) by lia.
      * assert (∀ j m, ¬ flags messages i (ticket :: rest) j m) as Hnone.
        { intros j m (t & _ & Hm & _).
          apply lookup_ge_None in Hm0. apply lookup_lt_Some in Hm. lia. }
        split_and!; try done.
        -- exists []. split; [by rewrite app_nil_r|].
           intros e. split; [by intros ?%elem_of_nil|].
           intros (j & m & Hf & _). by destruct (Hnone j m).
        -- intros j m Hf. by destruct (Hnone j m).
    + specialize (IH (S i) db issued).
      destruct (reconcile w messages (S i) rest db issued) as [[db' issued'] raised].
      destruct IH as (IH1 & IH2 & IH3 & (new & -> & IH4) & IH5).
      split_and!; try done.
      * exists new. split; [done|].
        intros e. rewrite IH4. split.
        -- intros (j & m & Hf & ->). exists (S j), m. by rewrite flags_cons_S.
        -- intros (j & m & Hf & ->). destruct j as [|j].
           ++ apply flags_cons_0 in Hf as [_ Hf]. congruence.
           ++ exists j, m. by rewrite <- flags_cons_S.
      * intros j m Hf Hok. destruct j as [|j].
        -- apply flags_cons_0 in Hf as [_ Hf]. congruence.
        -- apply flags_cons_S in Hf. apply (IH5 j m); [done|].
           by replace (S i + j) with (i + S j) by lia.
Qed.
End reconcile_facts.

Section webhook_paths.
Import ChatwootWebhook.

Lemma position_unregistered_flags messages tickets token :
  position_unregistered messages tickets token ↔
  ∃ j m, flags messages 0 tickets j m ∧ Msg.to m = token.
Proof.
  unfold position_unregistered, flags. split.
  - intros (j & t & m & Ht & Hm & Hs & Hd & Hto). exists j, m. split; [|done].
    exists t. split_and!; try done. by apply device_not_registered_spec.
  - intros (j & m & (t & Ht & Hm & Hd) & Hto).
    apply device_not_registered_spec in Hd as [? ?]. by exists j, t, m.
Qed.

Lemma webhook_from_gateway w req db userId :
  calls_gateway w req db userId →
  chatwoot_webhook w req db = from_gateway w req db userId.
Proof.
  intros (He & Hmt & Hs & Hc & Hu & Ht & Hn).
  unfold chatwoot_webhook, from_gateway. rewrite He, Hmt, Hs, Hc, Ht.
  destruct (decide (_ ∨ _)) as [[?|?]|_]; [done..|].
  destruct (decide (Some "User" ≠ Some "User")) as [?|_]; [done|].
  simpl. rewrite bool_decide_true by done. simpl.
  destruct (decide (length (fetch_tokens userId db) = 0)) as [?%length_zero_iff_nil|_];
    [done|].
  destruct (gateway w) as [| | |data]; try done.
  by destruct (match data with Some _ => _ | None => _ end) as [[db' issued] [message|]].
Qed.

(** A request that does not get to the gateway call is answered without a
    duration, and without any effect. *)
Lemma webhook_early_or_calls w req db :
  (∃ userId, calls_gateway w req db userId) ∨
  (has_field "duration_ms" (response_of (chatwoot_webhook w req db)) = false ∧
   database_of (chatwoot_webhook w req db) = db ∧
   effects_of (chatwoot_webhook w req db) = []).
Proof.
  unfold chatwoot_webhook.
  destruct (decide (_ ∨ _)) as [_|Hok]; [by right|].
  destruct (decide (_ ≠ Some "User")) as [_|Huser]; [by right|].
  destruct (contact req ≫= identifier) as [userId|] eqn:Hc; [|by right].
  simpl. destruct (bool_decide (userId ≠ "")) eqn:Hu; [|by right].
  apply bool_decide_eq_true in Hu. simpl.
  destruct (tokensError w) as [message|] eqn:Ht; [by right|].
  destruct (decide (length (fetch_tokens userId db) = 0)) as [_|Hn]; [by right|].
  left. exists userId. unfold calls_gateway. split_and!; try done.
  - destruct (decide (event req = Some "message_created")); [done|].
    exfalso. apply Hok. by left.
  - destruct (decide (message_type req = Some "incoming")); [done|].
    exfalso. apply Hok. by right.
  - destruct (decide (sender req ≫= type = Some "User")); [done|].
    exfalso. by apply Huser.
  - intros Hnil. apply Hn. by rewrite Hnil.
Qed.

Lemma webhook_delivered w req db userId data :
  reaches_gateway w req db userId data →
  let messages := make_message w userId (content req) <$> fetch_tokens userId db in
  let r := match data with
           | Some tickets => reconcile w messages 0 tickets db []
           | None => (db, [], None)
           end in
  chatwoot_webhook w req db =
  (match r.2 with
   | Some message => fatal w message
   | None => res_json [("ok", JBool true);
                       ("sent", JNum (Z.of_nat (length (fetch_tokens userId db))));
                       ("duration_ms", JNum (endTime w - startTime w))]
   end, r.1.1, GatewaySend messages :: r.1.2).
Proof.
  intros [Hcalls Hg] messages r.
  rewrite (webhook_from_gateway w req db userId Hcalls).
  unfold from_gateway. by rewrite Hg.
Qed.
End webhook_paths.

(** C2.  In both services the deactivations of a request are exactly those
    called for by the tickets of its delivered gateway calls.  A ticket with
    status "error" and error code "DeviceNotRegistered" at a position of the
    submitted array makes the request issue the update that sets is_active
    to false for the token of the message at that position, and when the
    datastore carries the update out every row with that token is inactive
    afterwards; conversely every token a request deactivates is the token of
    a message whose ticket has that status and that code.  In the queue
    processor the submitted array is the chunk and the update is the bulk
    update after delivery; in the webhook receiver it is the whole message
    list and there is one update per ticket. *)
Theorem unregistered_tokens_deactivated :
  (∀ (w : ProcessQueue.world) (notifications : list Queue.entry) (db : database),
     let o := ProcessQueue.after_claim w notifications db in
     let cs := ProcessQueue.chunks (prepared notifications db) in
     ProcessQueue.updateError w = None →
     ProcessQueue.tokensError w = None →
     prepared notifications db ≠ [] →
     (∀ token, reported_unregistered w 0 cs token ↔
               ∃ tokens, DeactivateTokens tokens ∈ effects_of o ∧ token ∈ tokens) ∧
     (ProcessQueue.deactivateFails w = false →
      ∀ token, reported_unregistered w 0 cs token → inactive token (database_of o))) ∧
  (∀ (w : ChatwootWebhook.world) (req : ChatwootWebhook.body_t) (db : database)
     (userId : string) (tickets : list Ticket.t),
     let o := ChatwootWebhook.chatwoot_webhook w req db in
     let messages :=
       ChatwootWebhook.make_message w userId (ChatwootWebhook.content req)
         <$> ChatwootWebhook.fetch_tokens userId db in
     reaches_gateway w req db userId (Some tickets) →
     (∀ token, position_unregistered messages tickets token ↔
               ∃ tokens, DeactivateTokens tokens ∈ effects_of o ∧ token ∈ tokens) ∧
     (∀ j ticket m,
        tickets !! j = Some ticket → messages !! j = Some m →
        Ticket.status ticket = "error" →
        (Ticket.details ticket ≫= Ticket.error) = Some "DeviceNotRegistered" →
        ChatwootWebhook.deactivateFails w j = false →
        inactive (Msg.to m) (database_of o))).
Proof.
  split.
  - intros w notifications db o cs Hu Ht Hm. subst o cs.
    assert (notifications ≠ []) as Hne by (by intros ->).
    destruct (after_claim_batch_end w notifications db Hne)
      as [message Hu'|message Hu' Ht'|Hu' Ht' Hm'|db2 evd Hu' Ht' Hm' Hd];
      try congruence.
    unfold effects_of, database_of. simpl.
    set (inv := ProcessQueue.invalidTokens _) in *.
    assert (∀ token, reported_unregistered w 0
              (ProcessQueue.chunks (prepared notifications db)) token ↔ token ∈ inv)
      as Hinv.
    { intros token. symmetry. apply deliver_invalidTokens. }
    split.
    + intros token. rewrite Hinv. split.
      * intros Hin.
        destruct Hd as [(Hz & _)|(_ & _ & ->)].
        { apply size_empty_inv in Hz. apply Hz in Hin. by apply not_elem_of_empty in Hin. }
        exists (elements inv). split; [|by apply elem_of_elements].
        apply elem_of_cons. right. rewrite !elem_of_app. right. left.
        by apply list_elem_of_singleton.
      * intros (tokens & Hin & Htok).
        apply elem_of_cons in Hin as [?|Hin]; [done|].
        rewrite !elem_of_app in Hin. destruct Hin as [Hin|[Hin|Hin]].
        -- by apply list_elem_of_fmap in Hin as (? & ? & ?).
        -- destruct Hd as [(_ & _ & ->)|(_ & _ & ->)];
             [by apply elem_of_nil in Hin|].
           apply list_elem_of_singleton in Hin as [= ->].
           by apply elem_of_elements.
        -- by apply list_elem_of_singleton in Hin.
    + intros Hok token Hrep%Hinv.
      destruct Hd as [(Hz & _)|(_ & -> & _)].
      { apply size_empty_inv in Hz. apply Hz in Hrep. by apply not_elem_of_empty in Hrep. }
      rewrite Hok.
      apply (token_steps_inactive _
               (ProcessQueue.deactivate_tokens (elements inv)
                  (ProcessQueue.mark_processing (Queue.id <$> notifications) db))).
      * by destruct (ProcessQueue.finalUpdateError w).
      * apply deactivate_tokens_inactive. by apply elem_of_elements.
  - intros w req db userId tickets o messages Hreach. subst o.
    rewrite (webhook_delivered w req db userId (Some tickets) Hreach).
    fold messages.
    pose proof (reconcile_spec w messages tickets 0 db []) as Hspec.
    destruct (ChatwootWebhook.reconcile w messages 0 tickets db [])
      as [[db' issued] raised].
    destruct Hspec as (_ & _ & _ & (new & -> & Hnew) & Hdb).
    unfold effects_of, database_of. simpl. split.
    + intros token. rewrite position_unregistered_flags. split.
      * intros (j & m & Hf & <-). exists [Msg.to m].
        split; [|by apply list_elem_of_singleton].
        apply elem_of_cons. right. apply Hnew. by exists j, m.
      * intros (tokens & Hin & Htok).
        apply elem_of_cons in Hin as [?|Hin]; [done|].
        apply Hnew in Hin as (j & m & Hf & [= ->]).
        apply list_elem_of_singleton in Htok as ->. by exists j, m.
    + intros j ticket m Htk Hmsg Hs Hd Hok.
      apply (Hdb j m); [|done].
      exists ticket. split_and!; try done. by apply device_not_registered_spec.
Qed.

Lemma unregistered_tokens_deactivated_witness :
  (let w := Sample.world in
   let notifications := claimed w Sample.db in
   let o := ProcessQueue.after_claim w notifications Sample.db in
   let cs := ProcessQueue.chunks (prepared notifications Sample.db) in
   (∀ token, reported_unregistered w 0 cs token ↔
             ∃ tokens, DeactivateTokens tokens ∈ effects_of o ∧ token ∈ tokens) ∧
   (ProcessQueue.deactivateFails w = false →
    ∀ token, reported_unregistered w 0 cs token → inactive token (database_of o))) ∧
  (let w := Sample.hook_world in
   let tickets := [Sample.ticket_ok; Sample.ticket_error "DeviceNotRegistered"] in
   let o := ChatwootWebhook.chatwoot_webhook w Sample.request Sample.db in
   let messages :=
     ChatwootWebhook.make_message w "alice" (ChatwootWebhook.content Sample.request)
       <$> ChatwootWebhook.fetch_tokens "alice" Sample.db in
   (∀ token, position_unregistered messages tickets token ↔
             ∃ tokens, DeactivateTokens tokens ∈ effects_of o ∧ token ∈ tokens) ∧
   (∀ j ticket m,
      tickets !! j = Some ticket → messages !! j = Some m →
      Ticket.status ticket = "error" →
      (Ticket.details ticket ≫= Ticket.error) = Some "DeviceNotRegistered" →
      ChatwootWebhook.deactivateFails w j = false →
      inactive (Msg.to m) (database_of o))).
Proof.
  split.
  - apply (proj1 unregistered_tokens_deactivated Sample.world
             (claimed Sample.world Sample.db) Sample.db).
    + reflexivity.
    + reflexivity.
    + vm_compute. discriminate.
  - apply (proj2 unregistered_tokens_deactivated Sample.hook_world Sample.request
             Sample.db "alice"
             [Sample.ticket_ok; Sample.ticket_error "DeviceNotRegistered"]).
    unfold reaches_gateway, calls_gateway.
    split_and!; vm_compute; (reflexivity || discriminate).
Defined.

(** On the sample data: the webhook request deactivates the second token of
    alice and nothing else; the queue request collects the token of the one
    message flagged in each chunk. *)
Example sample_deactivations :
  Token.is_active <$> profile_push_tokens
    (database_of (ChatwootWebhook.chatwoot_webhook Sample.hook_world Sample.request
                    Sample.db)) = [true; false; false] ∧
  filter (λ e, negb (is_gateway_send e))
    (effects_of (ProcessQueue.process_queue Sample.world Sample.db)) =
  [UpdateQueueStatus processing None [3; 1; 2]%Z;
   DeactivateTokens ["ExponentPushToken[a2]"];
   UpdateQueueStatus sent (Some 1500%Z) [3; 1; 2]%Z].
Proof. by vm_compute. Qed.

(** ** One request at a time only moves rows forward *)

Section advance_facts.
Import ProcessQueue.

Lemma NoDup_fmap_inj {A B} (f : A → B) (l : list A) x y :
  NoDup (f <$> l) → x ∈ l → y ∈ l → f x = f y → x = y.
Proof.
  intros Hnd [i Hi]%list_elem_of_lookup [j Hj]%list_elem_of_lookup Hf.
  assert (i = j) as ->.
  { apply (NoDup_lookup _ i j (f x) Hnd).
    - by rewrite list_lookup_fmap, Hi.
    - by rewrite list_lookup_fmap, Hj, Hf. }
  congruence.
Qed.

Lemma advances_mark_processing now db :
  NoDup (Queue.id <$> notification_queue db) →
  advances db
    (mark_processing (Queue.id <$> fetch_pending now (notification_queue db)) db).
Proof.
  intros Hnd. split; [|done]. simpl.
  apply update_where_Forall2; [done|].
  intros r Hr (n & Hid & Hn)%list_elem_of_fmap.
  apply elem_of_fetch_pending in Hn as (Hn & Hp & _).
  assert (r = n) as -> by (by apply (NoDup_fmap_inj Queue.id (notification_queue db))).
  split; [done|]. rewrite Hp. simpl. lia.
Qed.

Lemma advances_mark_sent now ids db : advances db (mark_sent now ids db).
Proof.
  split; [|done]. simpl. apply update_where_Forall2; [done|].
  intros r _ _. split; [done|]. simpl. destruct (Queue.status r); simpl; lia.
Qed.

Lemma advances_deactivate_tokens tokens db : advances db (deactivate_tokens tokens db).
Proof. split; [done|]. simpl. apply deactivation_steps. Qed.

Lemma advances_apply_unless {E} (failure : option E) f db :
  advances db (f db) → advances db (apply_unless failure f db).
Proof. by destruct failure. Qed.

Lemma advances_process_queue w db :
  NoDup (Queue.id <$> notification_queue db) →
  advances db (database_of (process_queue w db)).
Proof.
  intros Hnd. unfold process_queue.
  destruct (fetchError w); [done|].
  set (rows := fetch_pending _ _).
  destruct (decide (rows = [])) as [Hnil|Hne].
  { rewrite Hnil. done. }
  pose proof (advances_mark_processing (fetchTime w) db Hnd) as H1. fold rows in H1.
  destruct (after_claim_batch_end w rows db Hne)
    as [message Hu|message Hu Ht|Hu Ht Hm|db2 evd Hu Ht Hm Hd];
    unfold database_of; simpl; try done.
  - etrans; [exact H1|]. apply advances_apply_unless, advances_mark_sent.
  - assert (advances db db2) as H2.
    { destruct Hd as [(_ & -> & _)|(_ & -> & _)]; [done|].
      destruct (deactivateFails w); [done|].
      etrans; [exact H1|]. apply advances_deactivate_tokens. }
    etrans; [exact H2|]. apply advances_apply_unless, advances_mark_sent.
Qed.

Lemma advances_chatwoot_webhook w req db :
  advances db (database_of (ChatwootWebhook.chatwoot_webhook w req db)).
Proof.
  unfold ChatwootWebhook.chatwoot_webhook.
  repeat (case_match || case_decide); subst; try done.
  all: unfold database_of; simpl.
  all: try (match goal with
            | H : (?a, _, _) = (?b, _, _) |- _ => assert (a = b) as <- by congruence
            end; done).
  all: match goal with
       | H : ChatwootWebhook.reconcile ?w0 ?ms ?i ?ts ?d ?iss = _ |- _ =>
           pose proof (reconcile_spec w0 ms ts i d iss) as Hspec;
           rewrite H in Hspec; destruct Hspec as (Hs & Hq & _)
       end.
  all: split; [by rewrite Hq|done].
Qed.

Lemma advances_handler w req db :
  advances db (database_of (ChatwootHandler.handler w req db)).
Proof.
  unfold ChatwootHandler.handler.
  repeat (case_match || case_decide); subst; done.
Qed.
End advance_facts.

Lemma token_steps_after_claim (w : ProcessQueue.world) rows db :
  Forall2 token_step (profile_push_tokens db)
    (profile_push_tokens (database_of (ProcessQueue.after_claim w rows db))).
Proof.
  destruct (decide (rows = [])) as [->|Hne]; [done|].
  destruct (after_claim_batch_end w rows db Hne)
    as [message Hu|message Hu Ht|Hu Ht Hm|db2 evd Hu Ht Hm Hd];
    unfold database_of; simpl; try done.
  - by destruct (ProcessQueue.finalUpdateError w).
  - assert (Forall2 token_step (profile_push_tokens db) (profile_push_tokens db2)).
    { destruct Hd as [(_ & -> & _)|(_ & -> & _)]; [done|].
      destruct (ProcessQueue.deactivateFails w); [done|]. apply deactivation_steps. }
    by destruct (ProcessQueue.finalUpdateError w).
Qed.

(** C9, as the code has it.  Take a table in which ids are unique.  A request
    of any of the three handlers, run on its own from the pending query to
    its response, leaves every queue row with its id and at the same or a
    later place on the path pending, processing, sent, and leaves every
    token row as it was or with is_active set to false.  For the token rows
    this also holds for the part of a queue request that follows the pending
    query, whatever batch it holds and whatever state the table is in: no
    update writes is_active true. *)
Theorem rows_only_move_forward (db : database) :
  NoDup (Queue.id <$> notification_queue db) →
  (∀ w, advances db (database_of (ProcessQueue.process_queue w db))) ∧
  (∀ w req, advances db (database_of (ChatwootWebhook.chatwoot_webhook w req db))) ∧
  (∀ w req, advances db (database_of (ChatwootHandler.handler w req db))) ∧
  (∀ w rows db',
     Forall2 token_step (profile_push_tokens db')
       (profile_push_tokens (database_of (ProcessQueue.after_claim w rows db')))).
Proof.
  intros Hnd. split_and!.
  - intros w. by apply advances_process_queue.
  - intros w req. apply advances_chatwoot_webhook.
  - intros w req. apply advances_handler.
  - intros w rows db'. apply token_steps_after_claim.
Qed.

Lemma rows_only_move_forward_witness :
  let db := Sample.db in
  (∀ w, advances db (database_of (ProcessQueue.process_queue w db))) ∧
  (∀ w req, advances db (database_of (ChatwootWebhook.chatwoot_webhook w req db))) ∧
  (∀ w req, advances db (database_of (ChatwootHandler.handler w req db))) ∧
  (∀ w rows db',
     Forall2 token_step (profile_push_tokens db')
       (profile_push_tokens (database_of (ProcessQueue.after_claim w rows db')))).
Proof.
  apply (rows_only_move_forward Sample.db).
  apply (bool_decide_unpack _). vm_compute. exact I.
Defined.

(** C9, as stated, fails when two queue requests overlap.  Request B reads
    the pending rows while entry 1 is still pending; request A then runs from
    start to end and leaves entry 1 sent; B resumes after its query with the
    batch it read, marks it processing and stops there because its token
    query fails.  Entry 1 has gone from sent back to processing. *)
Lemma overlapping_requests_revert_status :
  let db0 := Sample.db_solo in
  let rowsB := claimed Sample.world_tokens_down db0 in
  let dbA := database_of (ProcessQueue.process_queue Sample.world db0) in
  let dbB := database_of (ProcessQueue.after_claim Sample.world_tokens_down rowsB dbA) in
  NoDup (Queue.id <$> notification_queue db0) ∧
  Queue.status <$> notification_queue db0 = [pending] ∧
  Queue.status <$> notification_queue dbA = [sent] ∧
  Queue.status <$> notification_queue dbB = [processing] ∧
  ¬ advances dbA dbB.
Proof.
  split_and!.
  - apply (bool_decide_unpack _). vm_compute. exact I.
  - by vm_compute.
  - by vm_compute.
  - by vm_compute.
  - intros [Hq _]. vm_compute in Hq.
    apply Forall2_cons_1 in Hq as [[_ Hrank] _]. simpl in Hrank. lia.
Qed.

(** ** Grouping and expansion *)

Section expansion_facts.
Import ProcessQueue.

Lemma weight_obj_push {A} (f : string → nat) k (v : A) o :
  weight f (obj_push k v o) = weight f o + f k.
Proof.
  unfold weight. induction o as [|[k' vs] o IH]; simpl; [lia|].
  destruct (decide (k' = k)) as [->|]; simpl.
  - rewrite length_app. simpl. lia.
  - rewrite IH. lia.
Qed.

Lemma weight_foldl_push {A B} (f : string → nat) (key : B → string) (val : B → A)
    (l : list B) : ∀ acc,
  weight f (foldl (λ o x, obj_push (key x) (val x) o) acc l) =
  weight f acc + sum_list_with (λ x, f (key x)) l.
Proof.
  induction l as [|x l IH]; intros acc; simpl; [lia|].
  rewrite IH, weight_obj_push. lia.
Qed.

Lemma obj_get_push {A} k k' (v : A) o :
  obj_get k (obj_push k' v o) =
  if decide (k' = k) then obj_get k o ++ [v] else obj_get k o.
Proof.
  induction o as [|[k0 vs] o IH]; simpl.
  - destruct (decide (k' = k)); done.
  - destruct (decide (k0 = k')) as [->|Hne]; simpl.
    + destruct (decide (k' = k)); done.
    + destruct (decide (k0 = k)) as [->|]; [|done].
      by rewrite decide_False by done.
Qed.

Lemma obj_get_foldl_push {A B} (key : B → string) (val : B → A) k (l : list B) :
  ∀ acc,
  obj_get k (foldl (λ o x, obj_push (key x) (val x) o) acc l) =
  obj_get k acc ++ (val <$> filter (λ x, key x = k) l).
Proof.
  induction l as [|x l IH]; intros acc; simpl; [by rewrite app_nil_r|].
  rewrite IH, obj_get_push, filter_cons.
  destruct (decide (key x = k)); [|done].
  by rewrite fmap_cons, <- app_assoc.
Qed.

Lemma obj_keys_foldl_push {A B} (key : B → string) (val : B → A) (l : list B) x :
  x ∈ l → key x ∈ obj_keys (foldl (λ o x, obj_push (key x) (val x) o) [] l).
Proof.
  intros Hx.
  assert (obj_get (key x) (foldl (λ o x, obj_push (key x) (val x) o) [] l) ≠ []) as Hne.
  { rewrite obj_get_foldl_push. simpl.
    assert (x ∈ filter (λ y, key y = key x) l) as Hin by (by apply list_elem_of_filter).
    intros Hnil. apply (fmap_nil_inv val) in Hnil. rewrite Hnil in Hin.
    by apply elem_of_nil in Hin. }
  revert Hne. generalize (foldl (λ o x, obj_push (key x) (val x) o) [] l).
  intros o. unfold obj_keys. induction o as [|[k' vs] o IH]; simpl; [done|].
  destruct (decide (k' = key x)) as [->|]; intros Hne.
  - apply elem_of_cons. by left.
  - apply elem_of_cons. right. by apply IH.
Qed.

Lemma sum_list_with_ext_in {A} (f g : A → nat) (l : list A) :
  (∀ x, x ∈ l → f x = g x) → sum_list_with f l = sum_list_with g l.
Proof.
  induction l as [|x l IH]; intros Hfg; simpl; [done|].
  rewrite Hfg by (apply elem_of_cons; by left).
  rewrite IH; [done|]. intros y Hy. apply Hfg, elem_of_cons. by right.
Qed.

Lemma length_user_messages tokensByUser userId userNotifications :
  length (user_messages tokensByUser userId userNotifications) =
  length userNotifications * length (obj_get userId tokensByUser).
Proof.
  unfold user_messages.
  destruct (decide (length (obj_get userId tokensByUser) = 0)) as [Hz|_].
  { rewrite Hz. simpl. lia. }
  induction userNotifications as [|n ns IH]; [done|].
  rewrite bind_cons, length_app, length_fmap, IH. simpl. lia.
Qed.

Lemma length_expand byUser tokensByUser :
  length (expand byUser tokensByUser) =
  weight (λ user, length (obj_get user tokensByUser)) byUser.
Proof.
  unfold expand, weight. induction byUser as [|[u ns] o IH]; [done|].
  rewrite bind_cons, length_app, IH, length_user_messages. done.
Qed.

Lemma tokens_of_user userIds user db :
  user ∈ userIds →
  obj_get user (index_tokens (fetch_tokens userIds db)) = active_tokens user db.
Proof.
  intros Hin. unfold index_tokens, active_tokens.
  rewrite obj_get_foldl_push. simpl. f_equal.
  unfold fetch_tokens, where_. rewrite !list_filter_filter.
  apply list_filter_iff. intros t. split.
  - by intros [? _].
  - intros [Hu ?]. split_and!; try done. by rewrite Hu.
Qed.

Lemma obj_keys_push {A} k (v : A) o :
  obj_keys (obj_push k v o) =
  if decide (k ∈ obj_keys o) then obj_keys o else obj_keys o ++ [k].
Proof.
  unfold obj_keys. induction o as [|[k' vs] o IH]; csimpl; [done|].
  destruct (decide (k' = k)) as [->|Hne]; csimpl.
  - rewrite decide_True; [done|]. apply elem_of_cons. by left.
  - rewrite IH. destruct (decide (k ∈ o.*1)) as [Hin|Hnin].
    + rewrite decide_True; [done|]. apply elem_of_cons. by right.
    + rewrite decide_False; [done|].
      intros [?|?]%elem_of_cons; [congruence|done].
Qed.

Lemma NoDup_foldl_push {A B} (key : B → string) (val : B → A) (l : list B) : ∀ acc,
  NoDup (obj_keys acc) →
  NoDup (obj_keys (foldl (λ o x, obj_push (key x) (val x) o) acc l)).
Proof.
  induction l as [|x l IH]; intros acc Hnd; simpl; [done|].
  apply IH. rewrite obj_keys_push.
  destruct (decide (key x ∈ obj_keys acc)); [done|].
  apply NoDup_app. split_and!; [done| |apply NoDup_singleton].
  intros k Hk ->%list_elem_of_singleton. done.
Qed.

Lemma obj_get_elem_of {A} k (vs : list A) o :
  NoDup (obj_keys o) → (k, vs) ∈ o → obj_get k o = vs.
Proof.
  unfold obj_keys. induction o as [|[k' vs'] o IH]; csimpl.
  - by intros _ ?%elem_of_nil.
  - intros [Hnin Hnd]%NoDup_cons [[= -> ->]|Hin]%elem_of_cons.
    + by rewrite decide_True.
    + rewrite decide_False; [by apply IH|].
      intros ->. apply Hnin. apply list_elem_of_fmap. by exists (k, vs).
Qed.

Lemma group_by_user_groups notifications user ns :
  (user, ns) ∈ group_by_user notifications → ns = entries_of user notifications.
Proof.
  intros Hin. unfold group_by_user in *.
  rewrite <- (obj_get_elem_of user ns _
               (NoDup_foldl_push Queue.user_id id notifications [] (NoDup_nil_2)) Hin).
  rewrite obj_get_foldl_push. simpl. by rewrite list_fmap_id.
Qed.

Lemma length_prepared notifications db :
  length (prepared notifications db) =
  weight (λ user, length (active_tokens user db)) (group_by_user notifications).
Proof.
  unfold prepared. rewrite length_expand. unfold weight.
  apply sum_list_with_ext_in. intros [user ns] Hin. simpl. f_equal.
  rewrite tokens_of_user; [done|].
  unfold obj_keys. apply list_elem_of_fmap. by exists (user, ns).
Qed.

Lemma flat_obj_push {A} k (v : A) o :
  obj_push k v o ≫= snd ≡ₚ (o ≫= snd) ++ [v].
Proof.
  induction o as [|[k' vs] o IH]; [done|]. simpl.
  destruct (decide (k' = k)) as [->|].
  - rewrite !bind_cons. simpl. rewrite <- !app_assoc.
    apply Permutation_app_head, Permutation_app_comm.
  - rewrite !bind_cons, IH. simpl. by rewrite app_assoc.
Qed.

Lemma flat_foldl_push {A B} (key : B → string) (val : B → A) (l : list B) : ∀ acc,
  foldl (λ o x, obj_push (key x) (val x) o) acc l ≫= snd ≡ₚ (acc ≫= snd) ++ (val <$> l).
Proof.
  induction l as [|x l IH]; intros acc; simpl; [by rewrite app_nil_r|].
  rewrite IH, flat_obj_push, <- app_assoc. done.
Qed.

Lemma bind_groups {A B} (F : A → list B) (o : multimap A) :
  o ≫= (λ g, g.2 ≫= F) = (o ≫= snd) ≫= F.
Proof.
  induction o as [|[k vs] o IH]; [done|].
  rewrite !bind_cons, bind_app, IH. done.
Qed.

Lemma bind_ext_in {A B} (f g : A → list B) (l : list A) :
  (∀ x, x ∈ l → f x = g x) → l ≫= f = l ≫= g.
Proof.
  induction l as [|x l IH]; intros Hfg; [done|].
  rewrite !bind_cons, Hfg by (apply elem_of_cons; by left).
  rewrite IH; [done|]. intros y Hy. apply Hfg, elem_of_cons. by right.
Qed.

Lemma bind_no_tokens (ns : list Queue.entry) :
  ns ≫= (λ n, make_message n <$> []) = [].
Proof. induction ns as [|n ns IH]; [done|]. by rewrite bind_cons, IH. Qed.

Lemma prepared_pair_messages notifications db :
  prepared notifications db ≡ₚ pair_messages notifications db.
Proof.
  unfold prepared, pair_messages, expand.
  set (F := λ n, make_message n <$> active_tokens (Queue.user_id n) db).
  set (byUser := group_by_user notifications).
  rewrite (bind_ext_in _ (λ g, g.2 ≫= F) byUser).
  - rewrite bind_groups. unfold byUser, group_by_user.
    rewrite (flat_foldl_push Queue.user_id id). simpl. by rewrite list_fmap_id.
  - intros [user ns] Hin. simpl.
    assert (obj_get user (index_tokens (fetch_tokens (obj_keys byUser) db))
            = active_tokens user db) as Htok.
    { apply tokens_of_user. unfold obj_keys. apply list_elem_of_fmap.
      by exists (user, ns). }
    unfold user_messages. rewrite Htok.
    apply group_by_user_groups in Hin.
    assert (ns ≫= F =
            ns ≫= (λ n, make_message n <$> active_tokens user db)) as ->.
    { apply bind_ext_in. intros n Hn. unfold F. rewrite Hin in Hn.
      apply list_elem_of_filter in Hn as [-> _]. done. }
    destruct (decide (length (active_tokens user db) = 0)) as [Hz|_]; [|done].
    apply length_zero_iff_nil in Hz. rewrite Hz. by rewrite bind_no_tokens.
Qed.

Lemma two_users_split a b (l : list Queue.entry) :
  a ≠ b →
  Forall (λ n, Queue.status n = pending ∧
               (Queue.user_id n = a ∨ Queue.user_id n = b)) l →
  length (entries_of a l) + length (entries_of b l) = length l.
Proof.
  intros Hab. unfold entries_of.
  induction 1 as [|n l [_ Hn] _ IH]; [done|].
  rewrite !filter_cons. simpl.
  destruct Hn as [Hn|Hn]; rewrite Hn.
  - rewrite decide_True, decide_False by done. simpl. lia.
  - rewrite decide_False, decide_True by done. simpl. lia.
Qed.

Lemma two_users_tokens a b (l : list Queue.entry) db :
  a ≠ b →
  Forall (λ n, Queue.status n = pending ∧
               (Queue.user_id n = a ∨ Queue.user_id n = b)) l →
  length (active_tokens b db) = 0 →
  sum_list_with (λ n, length (active_tokens (Queue.user_id n) db)) l =
  length (active_tokens a db) * length (entries_of a l).
Proof.
  intros Hab Hl Hb. unfold entries_of.
  induction Hl as [|n l [_ Hn] _ IH]; simpl; [lia|].
  rewrite filter_cons, IH.
  destruct Hn as [Hn|Hn]; rewrite Hn.
  - rewrite decide_True by done. simpl. lia.
  - rewrite decide_False by done. lia.
Qed.
End expansion_facts.

(** C3, as the code has it.  The expansion makes one message for every pair
    of a claimed entry and an active token of its user (the prepared list is
    a rearrangement of the list of these messages): the message count is
    the sum, over the entries, of the number of active tokens of the entry's
    user, and also the sum, over the groups of the batch (one per user, with
    that user's entries), of entries times active tokens; users without an
    active token add nothing.  With three pending entries for two users, one
    with two active tokens and one with none, the count is twice the number
    of entries of the user with the tokens, and that number is 1 or 2. *)
Theorem expansion_count (notifications : list Queue.entry) (db : database) :
  prepared notifications db ≡ₚ pair_messages notifications db ∧
  length (prepared notifications db) =
    sum_list_with (λ n, length (active_tokens (Queue.user_id n) db)) notifications ∧
  length (prepared notifications db) =
    sum_list_with (λ g, length g.2 * length (active_tokens g.1 db))
      (ProcessQueue.group_by_user notifications) ∧
  NoDup (obj_keys (ProcessQueue.group_by_user notifications)) ∧
  (∀ user ns, (user, ns) ∈ ProcessQueue.group_by_user notifications →
              ns = entries_of user notifications) ∧
  (∀ a b, three_entries_two_users a b notifications db →
          length (prepared notifications db) = 2 * length (entries_of a notifications) ∧
          (length (entries_of a notifications) = 1 ∨
           length (entries_of a notifications) = 2)).
Proof.
  split_and!.
  - apply prepared_pair_messages.
  - rewrite length_prepared. unfold ProcessQueue.group_by_user.
    rewrite (weight_foldl_push _ Queue.user_id id). unfold weight. simpl. done.
  - apply length_prepared.
  - apply NoDup_foldl_push. apply NoDup_nil_2.
  - apply group_by_user_groups.
  - intros a b (Hab & Hlen & Hall & Ha & Hb & Hta & Htb).
    pose proof (two_users_split a b notifications Hab Hall) as Hsplit.
    assert (length (entries_of a notifications) ≠ 0) by (by destruct (entries_of a _)).
    assert (length (entries_of b notifications) ≠ 0) by (by destruct (entries_of b _)).
    split; [|lia].
    rewrite length_prepared. unfold ProcessQueue.group_by_user.
    rewrite (weight_foldl_push _ Queue.user_id id). unfold weight. simpl.
    rewrite (two_users_tokens a b) by done. by rewrite Hta.
Qed.

Lemma expansion_count_witness :
  let notifications := claimed Sample.world Sample.db_one in
  three_entries_two_users "alice" "bob" notifications Sample.db_one ∧
  length (prepared notifications Sample.db_one) =
    2 * length (entries_of "alice" notifications) ∧
  (length (entries_of "alice" notifications) = 1 ∨
   length (entries_of "alice" notifications) = 2).
Proof.
  assert (three_entries_two_users "alice" "bob"
            (claimed Sample.world Sample.db_one) Sample.db_one) as Hscenario.
  { unfold three_entries_two_users. split_and!.
    - discriminate.
    - reflexivity.
    - apply (bool_decide_unpack _). vm_compute. exact I.
    - vm_compute. discriminate.
    - vm_compute. discriminate.
    - reflexivity.
    - reflexivity. }
  split; [exact Hscenario|].
  apply (proj2 (proj2 (proj2 (proj2 (proj2
           (expansion_count (claimed Sample.world Sample.db_one) Sample.db_one)))))
           "alice" "bob" Hscenario).
Defined.

(** C3, as stated, fails on its example: with three pending entries for two
    users, two active tokens for alice and none for bob, and two of the
    entries being alice's, the expansion yields four messages, not two. *)
Lemma two_entries_two_tokens_give_four_messages :
  let notifications := claimed Sample.world Sample.db in
  three_entries_two_users "alice" "bob" notifications Sample.db ∧
  Msg.to <$> prepared notifications Sample.db =
    ["ExponentPushToken[a1]"; "ExponentPushToken[a2]";
     "ExponentPushToken[a1]"; "ExponentPushToken[a2]"] ∧
  length (prepared notifications Sample.db) ≠ 2.
Proof.
  split_and!.
  - unfold three_entries_two_users. split_and!.
    + discriminate.
    + reflexivity.
    + apply (bool_decide_unpack _). vm_compute. exact I.
    + vm_compute. discriminate.
    + vm_compute. discriminate.
    + reflexivity.
    + reflexivity.
  - by vm_compute.
  - vm_compute. discriminate.
Qed.

(** ** The pending query *)

Section order_facts.
Context {A : Type}.

Global Instance order_rel_total (cs : list (order_clause A)) : Total (order_rel cs).
Proof.
  induction cs as [|c cs IH]; intros a b; simpl; [by left|].
  unfold clause_before.
  destruct (Z.lt_trichotomy (column c a) (column c b)) as [Hlt|[Heq|Hgt]].
  - destruct (ascending c); [left|right]; by left.
  - destruct (IH a b); [left|right]; right; by split.
  - destruct (ascending c); [right|left]; left; lia.
Qed.

Global Instance order_rel_trans (cs : list (order_clause A)) : Transitive (order_rel cs).
Proof.
  induction cs as [|c cs IH]; intros x y z; simpl; [done|].
  unfold clause_before.
  intros [H1|[E1 H1]] [H2|[E2 H2]].
  - left. destruct (ascending c); lia.
  - left. rewrite <- E2. done.
  - left. rewrite E1. done.
  - right. split; [congruence|]. by apply (IH x y z).
Qed.

Lemma StronglySorted_lookup (R : relation A) (l : list A) i j a b :
  StronglySorted R l → i < j → l !! i = Some a → l !! j = Some b → R a b.
Proof.
  intros Hs. revert i j. induction Hs as [|x l Hs IH Hall]; intros i j Hij Hi Hj.
  - by rewrite lookup_nil in Hi.
  - destruct j as [|j]; [lia|]. simpl in Hj. destruct i as [|i]; simpl in Hi.
    + injection Hi as <-. rewrite Forall_forall in Hall.
      apply Hall. by apply list_elem_of_lookup_2 in Hj.
    + apply (IH i j); [lia|done..].
Qed.
End order_facts.

(** C7.  The pending query returns at most 500 rows ([BATCH_SIZE]); each is
    a row of the table with status pending and scheduled_for not after the
    time of the query; a row that comes earlier in the result has a priority
    at least as high as a later one and, when the two priorities are equal,
    a scheduled_for that is not later; the rows left out, if any, are
    pending due rows that sort after every returned row.  When the result is
    empty the request answers 200 with ok: true and processed: 0, changes
    nothing and issues no further call. *)
Theorem claim_query (now : Z) (table : list Queue.entry) :
  let rows := ProcessQueue.fetch_pending now table in
  ProcessQueue.BATCH_SIZE = 500 ∧
  length rows ≤ 500 ∧
  (∀ n, n ∈ rows →
        n ∈ table ∧ Queue.status n = pending ∧ (Queue.scheduled_for n ≤ now)%Z) ∧
  (∀ i j a b, i < j → rows !! i = Some a → rows !! j = Some b →
     (Queue.priority b ≤ Queue.priority a)%Z ∧
     (Queue.priority a = Queue.priority b →
      (Queue.scheduled_for a ≤ Queue.scheduled_for b)%Z)) ∧
  (∃ rest,
     rows ++ rest ≡ₚ
       filter (λ n, Queue.status n = pending ∧ (Queue.scheduled_for n ≤ now)%Z) table ∧
     (rest ≠ [] → length rows = 500) ∧
     ∀ a b, a ∈ rows → b ∈ rest →
       (Queue.priority b ≤ Queue.priority a)%Z ∧
       (Queue.priority a = Queue.priority b →
        (Queue.scheduled_for a ≤ Queue.scheduled_for b)%Z)) ∧
  (∀ w db,
     ProcessQueue.fetchError w = None →
     ProcessQueue.fetch_pending (ProcessQueue.fetchTime w) (notification_queue db) = [] →
     ProcessQueue.process_queue w db =
       (res_json [("ok", JBool true); ("processed", JNum 0)], db, [])).
Proof.
  intros rows.
  assert (∀ a b, order_rel ProcessQueue.claim_order a b →
            (Queue.priority b ≤ Queue.priority a)%Z ∧
            (Queue.priority a = Queue.priority b →
             (Queue.scheduled_for a ≤ Queue.scheduled_for b)%Z)) as Hord.
  { intros a b. unfold ProcessQueue.claim_order. simpl.
    unfold clause_before. simpl. lia. }
  set (due := order ProcessQueue.claim_order
                (where_ (λ n, (Queue.scheduled_for n ≤ now)%Z)
                   (where_ (λ n, Queue.status n = pending) table))).
  assert (StronglySorted (order_rel ProcessQueue.claim_order) due) as Hsorted.
  { apply StronglySorted_merge_sort; apply _. }
  assert (rows = take 500 due) as Hrows by done.
  split_and!.
  - reflexivity.
  - rewrite Hrows, length_take. lia.
  - intros n. apply elem_of_fetch_pending.
  - intros i j a b Hij Hi Hj. apply Hord.
    apply (StronglySorted_lookup _ rows i j); try done.
    rewrite Hrows. rewrite <- (take_drop 500 due) in Hsorted.
    by apply StronglySorted_app_1_l in Hsorted.
  - exists (drop 500 due). split_and!.
    + rewrite Hrows, take_drop. unfold due, order.
      rewrite merge_sort_Permutation. unfold where_.
      rewrite list_filter_filter.
      rewrite (list_filter_iff _
                 (λ n, Queue.status n = pending ∧ (Queue.scheduled_for n ≤ now)%Z));
        [done|].
      intros n. tauto.
    + intros Hrest. rewrite Hrows, length_take.
      assert (500 < length due); [|lia].
      destruct (decide (500 < length due)); [done|].
      rewrite drop_ge in Hrest by lia. done.
    + intros a b Ha Hb. apply Hord.
      rewrite <- (take_drop 500 due) in Hsorted.
      apply (StronglySorted_app_1_elem_of _ _ _ _ _ Hsorted); [by rewrite <- Hrows|done].
  - intros w db Hf Hnil. unfold ProcessQueue.process_queue. by rewrite Hf, Hnil.
Qed.

(** The sample table is claimed in the order 3, 1, 2: entries 3 and 1 share
    the highest priority and 3 is scheduled first. *)
Example sample_claim_order :
  Queue.id <$> claimed Sample.world Sample.db = [3; 1; 2]%Z.
Proof. reflexivity. Qed.

Lemma claim_query_witness :
  ProcessQueue.process_queue Sample.world (Sample.table []) =
    (res_json [("ok", JBool true); ("processed", JNum 0)], Sample.table [], []).
Proof.
  apply (proj2 (proj2 (proj2 (proj2 (proj2 (claim_query 0 []))))) Sample.world
           (Sample.table [])); reflexivity.
Defined.

(** ** The webhook filters *)

Section filter_facts.

Lemma generic_filtered w req db :
  ChatwootWebhook.message_type req = Some "outgoing" ∨
  (ChatwootWebhook.sender req ≫= ChatwootWebhook.type) ≠ Some "User" →
  ∃ note,
    ChatwootWebhook.chatwoot_webhook w req db =
      (res_json [("ok", JBool true); ("message", JStr note)], db, []).
Proof.
  intros Hf. unfold ChatwootWebhook.chatwoot_webhook.
  destruct (decide (_ ∨ _)) as [_|Hnot]; [by eexists|].
  destruct (decide (_ ≠ Some "User")) as [_|Huser]; [by eexists|].
  destruct Hf as [Hout|?]; [|done].
  exfalso. apply Hnot. right. by rewrite Hout.
Qed.

Lemma ticketing_outgoing_filtered w req db msg :
  ChatwootHandler.method req = "POST" →
  ChatwootHandler.message (ChatwootHandler.body req) = Some msg →
  ChatwootHandler.message_type msg = Some "outgoing" →
  ∃ note,
    ChatwootHandler.handler w req db =
      (res_status_json 200 [("success", JBool true); ("message", JStr note)], db, []).
Proof.
  intros Hm Hmsg Hout. unfold ChatwootHandler.handler.
  destruct (decide (ChatwootHandler.method req ≠ "POST")) as [Hno|_]; [done|].
  destruct (decide (_ ≠ Some "message_created")); [by eexists|].
  rewrite Hmsg. rewrite decide_True by done. by eexists.
Qed.

Lemma ticketing_agent_persisted w req db msg conv consultation :
  ChatwootHandler.method req = "POST" →
  ChatwootHandler.event (ChatwootHandler.body req) = Some "message_created" →
  ChatwootHandler.message (ChatwootHandler.body req) = Some msg →
  ChatwootHandler.message_type msg ≠ Some "outgoing" →
  ChatwootHandler.conversation (ChatwootHandler.body req) = Some conv →
  ChatwootHandler.find_consultation w conv db = Some consultation →
  ChatwootHandler.messageError w = None →
  ∃ row,
    ChatwootHandler.handler w req db =
      (res_status_json 200
         [("success", JBool true);
          ("message_id", JNum (ChatwootHandler.savedMessageId w));
          ("consultation_id", JNum (Consultation.id consultation))],
       set_consultation_messages (consultation_messages db ++ [row]) db,
       [InsertConsultationMessage row]) ∧
    ConsultationMessage.consultation_id row = Consultation.id consultation ∧
    ConsultationMessage.content row = ChatwootHandler.content msg ∧
    (ConsultationMessage.user_id row, ConsultationMessage.message_type row) =
      ChatwootHandler.attribute w msg consultation db.
Proof.
  intros Hm He Hmsg Hout Hconv Hfind Herr. unfold ChatwootHandler.handler.
  destruct (decide (ChatwootHandler.method req ≠ "POST")) as [Hno|_]; [done|].
  destruct (decide (_ ≠ Some "message_created")) as [Hno|_]; [done|].
  rewrite Hmsg, decide_False, Hconv, Hfind by done.
  destruct (ChatwootHandler.attribute w msg consultation db) as [senderId messageType].
  rewrite Herr. eexists. split; [reflexivity|]. done.
Qed.
End filter_facts.

(** C4, as the code has it.  Both receivers drop an outgoing message: a
    request whose message_type is outgoing is answered 200 with a success
    flag, sends nothing to the gateway and writes nothing.  The receiver of
    the generic payload does the same for a sender whose type is not User.
    The receiver of the ticketing payload has no filter on the sender: a
    message that is not outgoing and comes from an agent is stored as a
    consultation message, of type consultant or system. *)
Theorem webhook_filtering :
  (∀ w req db,
     let o := ChatwootWebhook.chatwoot_webhook w req db in
     ChatwootWebhook.message_type req = Some "outgoing" ∨
     (ChatwootWebhook.sender req ≫= ChatwootWebhook.type) ≠ Some "User" →
     status_code (response_of o) = 200%Z ∧
     get_field "ok" (payload (response_of o)) = Some (JBool true) ∧
     database_of o = db ∧ effects_of o = []) ∧
  (∀ w req db msg,
     let o := ChatwootHandler.handler w req db in
     ChatwootHandler.method req = "POST" →
     ChatwootHandler.message (ChatwootHandler.body req) = Some msg →
     ChatwootHandler.message_type msg = Some "outgoing" →
     status_code (response_of o) = 200%Z ∧
     get_field "success" (payload (response_of o)) = Some (JBool true) ∧
     database_of o = db ∧ effects_of o = []) ∧
  (∀ w req db msg conv consultation,
     let o := ChatwootHandler.handler w req db in
     ChatwootHandler.method req = "POST" →
     ChatwootHandler.event (ChatwootHandler.body req) = Some "message_created" →
     ChatwootHandler.message (ChatwootHandler.body req) = Some msg →
     ChatwootHandler.message_type msg ≠ Some "outgoing" →
     (ChatwootHandler.sender msg ≫= ChatwootHandler.type) = Some "agent" →
     ChatwootHandler.conversation (ChatwootHandler.body req) = Some conv →
     ChatwootHandler.find_consultation w conv db = Some consultation →
     ChatwootHandler.messageError w = None →
     ∃ row,
       effects_of o = [InsertConsultationMessage row] ∧
       consultation_messages (database_of o) = consultation_messages db ++ [row] ∧
       ConsultationMessage.message_type row ∈ ["consultant"; "system"]).
Proof.
  split_and!.
  - intros w req db o Hf. subst o.
    by destruct (generic_filtered w req db Hf) as [note ->].
  - intros w req db msg o Hm Hmsg Hout. subst o.
    by destruct (ticketing_outgoing_filtered w req db msg Hm Hmsg Hout) as [note ->].
  - intros w req db msg conv consultation o Hm He Hmsg Hout Hagent Hconv Hfind Herr.
    subst o.
    destruct (ticketing_agent_persisted w req db msg conv consultation
                Hm He Hmsg Hout Hconv Hfind Herr) as (row & -> & _ & _ & Hattr).
    exists row. split_and!; try done.
    unfold ChatwootHandler.attribute in Hattr. rewrite Hagent in Hattr.
    rewrite bool_decide_true in Hattr by done.
    destruct (truthy _); [|destruct (ChatwootHandler.find_admin w db)];
      injection Hattr as _ ->; repeat constructor.
Qed.

Lemma webhook_filtering_witness :
  (let o := ChatwootWebhook.chatwoot_webhook Sample.hook_world Sample.outgoing_request
              Sample.db in
   status_code (response_of o) = 200%Z ∧
   get_field "ok" (payload (response_of o)) = Some (JBool true) ∧
   database_of o = Sample.db ∧ effects_of o = []) ∧
  (let o := ChatwootHandler.handler Sample.handler_world Sample.outgoing_ticket_request
              Sample.db_chat in
   status_code (response_of o) = 200%Z ∧
   get_field "success" (payload (response_of o)) = Some (JBool true) ∧
   database_of o = Sample.db_chat ∧ effects_of o = []).
Proof.
  split.
  - apply (proj1 webhook_filtering Sample.hook_world Sample.outgoing_request Sample.db).
    left. reflexivity.
  - apply (proj1 (proj2 webhook_filtering) Sample.handler_world
             Sample.outgoing_ticket_request Sample.db_chat
             {| ChatwootHandler.message_type := Some "outgoing";
                ChatwootHandler.content := Some "Respuesta";
                ChatwootHandler.sender :=
                  Some {| ChatwootHandler.type := Some "agent" |} |});
      reflexivity.
Defined.

(** C4, as stated, fails for the ticketing payload: an incoming message whose
    sender is an agent, not an end user, is stored as a consultation message
    of the assigned consultant. *)
Lemma agent_message_is_persisted :
  let o := ChatwootHandler.handler Sample.handler_world Sample.agent_request
             Sample.db_chat in
  let row := {| ConsultationMessage.id := 1;
                ConsultationMessage.consultation_id := 7;
                ConsultationMessage.user_id := "carol";
                ConsultationMessage.content := Some "Buenos dias";
                ConsultationMessage.message_type := "consultant";
                ConsultationMessage.is_read := false |} in
  ((ChatwootHandler.message (ChatwootHandler.body Sample.agent_request)
      ≫= ChatwootHandler.sender) ≫= ChatwootHandler.type) = Some "agent" ∧
  status_code (response_of o) = 200%Z ∧
  effects_of o = [InsertConsultationMessage row] ∧
  consultation_messages Sample.db_chat = [] ∧
  consultation_messages (database_of o) = [row].
Proof. by vm_compute. Qed.

(** ** Which responses carry a duration *)

Section duration_facts.
Import ChatwootWebhook.

Lemma from_gateway_duration w req db userId :
  (∀ code text, gateway w ≠ HttpError code text) →
  get_field "duration_ms" (payload (response_of (from_gateway w req db userId))) =
    Some (JNum (endTime w - startTime w)).
Proof.
  intros Hno. unfold from_gateway.
  destruct (gateway w) as [message|code text|message|data] eqn:Hg; try done.
  - by destruct (Hno code text).
  - unfold response_of. simpl.
    by destruct (match data with Some _ => _ | None => _ end) as [[db' issued] [message|]].
Qed.

Lemma from_gateway_http_error w req db userId code text :
  gateway w = HttpError code text →
  has_field "duration_ms" (response_of (from_gateway w req db userId)) = false.
Proof. intros Hg. unfold from_gateway. by rewrite Hg. Qed.

Lemma handler_no_duration w req db :
  has_field "duration_ms" (response_of (ChatwootHandler.handler w req db)) = false.
Proof.
  unfold ChatwootHandler.handler.
  repeat (case_match || case_decide); done.
Qed.
End duration_facts.

(** C8, as the code has it.  The receiver of the generic payload puts the
    duration of the request (end time minus start time) in its response
    exactly when the request got as far as the gateway call and that call
    did not come back with a non-success status: that is the response after
    a delivered call and the response of the catch block.  The
    acknowledgments of ignored events, the missing-identifier response, the
    token query failure and the gateway error-status response carry no
    duration.  The receiver of the ticketing payload never reports one. *)
Theorem duration_reporting :
  (∀ w req db,
     let o := ChatwootWebhook.chatwoot_webhook w req db in
     let timed :=
       (∃ userId, calls_gateway w req db userId) ∧
       (∀ code text, ChatwootWebhook.gateway w ≠ HttpError code text) in
     (timed →
      get_field "duration_ms" (payload (response_of o)) =
        Some (JNum (ChatwootWebhook.endTime w - ChatwootWebhook.startTime w))) ∧
     (¬ timed → has_field "duration_ms" (response_of o) = false)) ∧
  (∀ w req db,
     has_field "duration_ms" (response_of (ChatwootHandler.handler w req db)) = false).
Proof.
  split.
  - intros w req db o timed. subst o timed. split.
    + intros [[userId Hcalls] Hno].
      rewrite (webhook_from_gateway w req db userId Hcalls).
      by apply from_gateway_duration.
    + intros Hnot.
      destruct (webhook_early_or_calls w req db) as [[userId Hcalls]|(Hearly & _)];
        [|done].
      rewrite (webhook_from_gateway w req db userId Hcalls).
      destruct (ChatwootWebhook.gateway w) as [message|code text|message|data] eqn:Hg.
      * exfalso. apply Hnot. split; [by exists userId|]. by intros ??.
      * by apply (from_gateway_http_error _ _ _ _ code text).
      * exfalso. apply Hnot. split; [by exists userId|]. by intros ??.
      * exfalso. apply Hnot. split; [by exists userId|]. by intros ??.
  - apply handler_no_duration.
Qed.

Lemma duration_reporting_witness :
  let w := Sample.hook_world in
  let o := ChatwootWebhook.chatwoot_webhook w Sample.request Sample.db in
  get_field "duration_ms" (payload (response_of o)) =
    Some (JNum (ChatwootWebhook.endTime w - ChatwootWebhook.startTime w)).
Proof.
  apply (proj1 (proj1 duration_reporting Sample.hook_world Sample.request Sample.db)).
  split.
  - exists "alice". unfold calls_gateway.
    split_and!; vm_compute; (reflexivity || discriminate).
  - intros code text. vm_compute. discriminate.
Defined.

(** C8, as stated, fails: the acknowledgment of an ignored event is
    [{ ok: true, message: 'Event ignored' }], with no duration. *)
Lemma ignored_event_has_no_duration :
  let o := ChatwootWebhook.chatwoot_webhook Sample.hook_world Sample.outgoing_request
             Sample.db in
  response_of o = res_json [("ok", JBool true); ("message", JStr "Event ignored")] ∧
  get_field "duration_ms" (payload (response_of o)) = None ∧
  has_field "duration_ms" (response_of o) = false.
Proof. by vm_compute. Qed.

(** * The rest of the handlers *)

(** ** The queue processor: failures before delivery *)

Section claimed_facts.
Import ProcessQueue.

Lemma claimed_process_queue w db :
  claimed w db ≠ [] →
  fetchError w = None ∧
  process_queue w db = after_claim w (claimed w db) db ∧
  ∀ n, n ∈ claimed w db → n ∈ notification_queue db.
Proof.
  unfold claimed, process_queue. destruct (fetchError w); [done|].
  intros _. split_and!; try done.
  intros n Hn. by apply elem_of_fetch_pending in Hn as (? & _).
Qed.
End claimed_facts.

(** X1.  When the pending query fails, or when the update that marks a
    claimed batch processing is refused, the request answers 500 with the
    datastore's message as error, the database is as it was before the
    request, and nothing is sent to the gateway. *)
Theorem early_failure_leaves_database (w : ProcessQueue.world) (db : database)
    (message : string) :
  let o := ProcessQueue.process_queue w db in
  ProcessQueue.fetchError w = Some message ∨
  (claimed w db ≠ [] ∧ ProcessQueue.updateError w = Some message) →
  response_of o = res_status_json 500 [("error", JStr message)] ∧
  database_of o = db ∧
  filter (λ e, is_gateway_send e) (effects_of o) = [].
Proof.
  intros o [Hf|[Hne Hu]]; subst o.
  - unfold ProcessQueue.process_queue. by rewrite Hf.
  - destruct (claimed_process_queue w db Hne) as (_ & -> & _).
    destruct (after_claim_batch_end w (claimed w db) db Hne)
      as [m Hu'|m Hu' Ht'|Hu' Ht' Hm|db2 evd Hu' Ht' Hm Hd]; try congruence.
    assert (m = message) as -> by congruence. done.
Qed.

Lemma early_failure_leaves_database_witness :
  let o := ProcessQueue.process_queue Cases.fetch_down Sample.db in
  response_of o = res_status_json 500 [("error", JStr "connection refused")] ∧
  database_of o = Sample.db ∧
  filter (λ e, is_gateway_send e) (effects_of o) = [].
Proof.
  apply (early_failure_leaves_database Cases.fetch_down Sample.db "connection refused").
  left. reflexivity.
Defined.

(** X2.  When the token query fails, the batch has already been marked
    processing: the request answers 500 with the datastore's message, its
    only effect is that update, every claimed row is left in status
    processing, and no later request claims any of them. *)
Theorem token_query_failure_strands_batch (w : ProcessQueue.world) (db : database)
    (message : string) (ws : list ProcessQueue.world) :
  let rows := claimed w db in
  let o := ProcessQueue.process_queue w db in
  rows ≠ [] →
  ProcessQueue.updateError w = None →
  ProcessQueue.tokensError w = Some message →
  response_of o = res_status_json 500 [("error", JStr message)] ∧
  effects_of o = [UpdateQueueStatus processing None (Queue.id <$> rows)] ∧
  (∀ n, n ∈ rows → Queue.with_status processing n ∈ notification_queue (database_of o)) ∧
  (∀ r, r ∈ notification_queue (database_of o) → Queue.id r ∈ Queue.id <$> rows →
        Queue.status r = processing) ∧
  Forall (λ batch, ∀ r, r ∈ batch → Queue.id r ∉ Queue.id <$> rows)
         (later_claims ws (database_of o)).
Proof.
  intros rows o Hne Hu Ht. subst o.
  destruct (claimed_process_queue w db Hne) as (_ & -> & Hin). fold rows in Hin |- *.
  destruct (after_claim_batch_end w rows db Hne)
    as [m Hu'|m Hu' Ht'|Hu' Ht' Hm|db2 evd Hu' Ht' Hm Hd]; try congruence.
  assert (m = message) as -> by congruence.
  unfold response_of, effects_of, database_of. simpl. split_and!; try done.
  - intros n Hn. apply update_where_hit; [by apply Hin|]. by apply list_elem_of_fmap_2.
  - intros r. apply mark_processing_rows.
  - apply held_later_claims. intros r Hr Hid.
    by rewrite (mark_processing_rows _ _ _ Hr Hid).
Qed.

Lemma token_query_failure_strands_batch_witness :
  let w := Sample.world_tokens_down in
  let ws := [Sample.world; Sample.world_flaky] in
  let rows := claimed w Sample.db in
  let o := ProcessQueue.process_queue w Sample.db in
  response_of o = res_status_json 500 [("error", JStr "timeout")] ∧
  effects_of o = [UpdateQueueStatus processing None (Queue.id <$> rows)] ∧
  (∀ n, n ∈ rows → Queue.with_status processing n ∈ notification_queue (database_of o)) ∧
  (∀ r, r ∈ notification_queue (database_of o) → Queue.id r ∈ Queue.id <$> rows →
        Queue.status r = processing) ∧
  Forall (λ batch, ∀ r, r ∈ batch → Queue.id r ∉ Queue.id <$> rows)
         (later_claims ws (database_of o)).
Proof.
  apply (token_query_failure_strands_batch Sample.world_tokens_down Sample.db "timeout"
           [Sample.world; Sample.world_flaky]).
  - vm_compute. discriminate.
  - reflexivity.
  - reflexivity.
Defined.

(** ** The queue processor: a batch without tokens *)

Section no_token_facts.
Import ProcessQueue.

Lemma bind_nil_iff {A B} (f : A → list B) (l : list A) :
  l ≫= f = [] ↔ ∀ x, x ∈ l → f x = [].
Proof.
  induction l as [|x l IH]; [by split; [intros _ ? ?%elem_of_nil|]|].
  rewrite bind_cons. split.
  - intros [Hx Hl]%app_eq_nil y [->|Hy]%elem_of_cons; [done|]. by apply IH.
  - intros Hall. rewrite Hall by (apply elem_of_cons; by left). simpl.
    apply IH. intros y Hy. apply Hall, elem_of_cons. by right.
Qed.

Lemma prepared_nil_iff notifications db :
  prepared notifications db = [] ↔
  ∀ n, n ∈ notifications → active_tokens (Queue.user_id n) db = [].
Proof.
  split.
  - intros Hnil n Hn.
    pose proof (prepared_pair_messages notifications db) as Hperm.
    rewrite Hnil in Hperm. apply Permutation_nil_l in Hperm.
    unfold pair_messages in Hperm.
    symmetry in Hperm.
    pose proof (proj1 (bind_nil_iff _ _) Hperm n Hn) as Hf. simpl in Hf.
    by apply fmap_nil_inv in Hf.
  - intros Hall. apply Permutation_nil_r.
    rewrite prepared_pair_messages. unfold pair_messages.
    rewrite (proj2 (bind_nil_iff _ notifications)); [done|].
    intros n Hn. by rewrite (Hall n Hn).
Qed.
End no_token_facts.

(** X3.  No message is prepared exactly when no user of the batch has an
    active token.  The request then marks the batch processing and sent
    without calling the gateway or touching the token table, and answers
    with ok, the number of claimed entries as processed and sent: 0; this
    response has no invalidTokens and no duration_ms field. *)
Theorem batch_without_tokens (w : ProcessQueue.world)
    (notifications : list Queue.entry) (db : database) :
  let o := ProcessQueue.after_claim w notifications db in
  (prepared notifications db = [] ↔
   ∀ n, n ∈ notifications → active_tokens (Queue.user_id n) db = []) ∧
  (notifications ≠ [] →
   ProcessQueue.updateError w = None →
   ProcessQueue.tokensError w = None →
   (∀ n, n ∈ notifications → active_tokens (Queue.user_id n) db = []) →
   response_of o =
     res_json [("ok", JBool true);
               ("processed", JNum (Z.of_nat (length notifications)));
               ("sent", JNum 0)] ∧
   effects_of o =
     [UpdateQueueStatus processing None (Queue.id <$> notifications);
      UpdateQueueStatus sent (Some (ProcessQueue.sentTime w))
        (Queue.id <$> notifications)] ∧
   profile_push_tokens (database_of o) = profile_push_tokens db).
Proof.
  intros o. split; [apply prepared_nil_iff|].
  intros Hne Hu Ht Hall. subst o.
  apply prepared_nil_iff in Hall.
  destruct (after_claim_batch_end w notifications db Hne)
    as [m Hu'|m Hu' Ht'|Hu' Ht' Hm|db2 evd Hu' Ht' Hm Hd]; try congruence.
  unfold response_of, effects_of, database_of. simpl. split_and!; try done.
  by destruct (ProcessQueue.finalUpdateError w).
Qed.

Lemma batch_without_tokens_witness :
  let w := Sample.world in
  let notifications := claimed w Sample.db_solo in
  let o := ProcessQueue.after_claim w notifications Sample.db_solo in
  response_of o =
    res_json [("ok", JBool true);
              ("processed", JNum (Z.of_nat (length notifications)));
              ("sent", JNum 0)] ∧
  effects_of o =
    [UpdateQueueStatus processing None (Queue.id <$> notifications);
     UpdateQueueStatus sent (Some (ProcessQueue.sentTime w))
       (Queue.id <$> notifications)] ∧
  profile_push_tokens (database_of o) = profile_push_tokens Sample.db_solo.
Proof.
  apply (proj2 (batch_without_tokens Sample.world
                  (claimed Sample.world Sample.db_solo) Sample.db_solo)).
  - vm_compute. discriminate.
  - reflexivity.
  - reflexivity.
  - intros n Hn. vm_compute in Hn.
    apply list_elem_of_singleton in Hn as ->. reflexivity.
Defined.

(** ** The queue processor: the delivery loop *)

Section chunk_count_facts.
Import ProcessQueue.

Lemma length_chunks_from messages i :
  length (chunks_from messages i) = (length messages - i + 99) / 100.
Proof.
  induction i as [i Hi|i Hi IH] using (chunk_index_ind messages);
    rewrite chunks_from_step; destruct (decide (i < length messages)); try lia.
  - replace (length messages - i) with 0 by lia. done.
  - rewrite length_cons, IH. unfold CHUNK_SIZE.
    destruct (decide (length messages - i ≤ 100)) as [Hle|Hgt].
    + replace (length messages - (i + 100)) with 0 by lia.
      change ((0 + 99) / 100) with 0.
      apply Nat.div_unique with (length messages - i - 1); lia.
    + replace (length messages - i + 99)
        with ((length messages - (i + 100) + 99) + 1 * 100) by lia.
      rewrite Nat.div_add by done. lia.
Qed.

Lemma lookup_chunks_from messages k : ∀ i chunk,
  chunks_from messages i !! k = Some chunk →
  chunk = slice (i + k * CHUNK_SIZE) (i + k * CHUNK_SIZE + CHUNK_SIZE) messages ∧
  i + k * CHUNK_SIZE < length messages.
Proof.
  induction k as [|k IH]; intros i chunk; rewrite chunks_from_step;
    destruct (decide (i < length messages)); simpl; try done.
  - intros [= <-]. rewrite Nat.add_0_r. done.
  - intros Hk. apply IH in Hk as [-> Hlt].
    replace (i + CHUNK_SIZE + k * CHUNK_SIZE) with (i + (CHUNK_SIZE + k * CHUNK_SIZE))
      in * by lia.
    done.
Qed.

Lemma sent_count_bounds w cs : ∀ k,
  sent_count w k cs ≤ length (concat cs) ∧
  ((∀ n, n < length cs → delivered_ok (gateway w (k + n)) = true) →
   sent_count w k cs = length (concat cs)) ∧
  ((∀ n, n < length cs → delivered_ok (gateway w (k + n)) = false) →
   sent_count w k cs = 0).
Proof.
  induction cs as [|c cs IH]; intros k; simpl; [by split_and!|].
  destruct (IH (S k)) as (Hle & Hall & Hnone). rewrite length_app. split_and!.
  - destruct (delivered_ok _); lia.
  - intros Hok. rewrite Hall.
    + specialize (Hok 0). rewrite Nat.add_0_r in Hok. rewrite Hok by lia. done.
    + intros n Hn. replace (S k + n) with (k + S n) by lia. apply Hok. lia.
  - intros Hno. rewrite Hnone.
    + specialize (Hno 0). rewrite Nat.add_0_r in Hno. rewrite Hno by lia. done.
    + intros n Hn. replace (S k + n) with (k + S n) by lia. apply Hno. lia.
Qed.
End chunk_count_facts.

(** X4.  The delivery loop makes ceil(n / 100) gateway calls for n messages
    (the number its log line announces); the k-th call carries the messages
    from position 100 k up to, not including, position 100 k + 100, so every
    call but the last carries exactly 100. *)
Theorem chunk_count_and_contents (messages : list Msg.t) :
  length (ProcessQueue.chunks messages) = (length messages + 99) / 100 ∧
  (∀ k chunk, ProcessQueue.chunks messages !! k = Some chunk →
     chunk = take 100 (drop (100 * k) messages) ∧
     100 * k < length messages ∧
     (S k < length (ProcessQueue.chunks messages) → length chunk = 100)).
Proof.
  split.
  - rewrite chunks_eq, length_chunks_from. by rewrite Nat.sub_0_r.
  - intros k chunk Hk.
    assert (length (ProcessQueue.chunks messages) = (length messages + 99) / 100) as Hlen.
    { rewrite chunks_eq, length_chunks_from. by rewrite Nat.sub_0_r. }
    rewrite chunks_eq in Hk. apply lookup_chunks_from in Hk as [-> Hlt].
    unfold ProcessQueue.slice, ProcessQueue.CHUNK_SIZE in *. simpl in Hlt.
    replace (0 + k * 100 + 100 - (0 + k * 100)) with 100 by lia.
    replace (0 + k * 100) with (100 * k) by lia.
    split_and!; [done|lia|].
    intros Hnext. rewrite length_take, length_drop.
    assert (100 * S k < length messages); [|lia].
    rewrite Hlen in Hnext.
    destruct (decide (100 * S k < length messages)); [done|].
    assert ((length messages + 99) / 100 < S (S k)); [|lia].
    apply Nat.Div0.div_lt_upper_bound. lia.
Qed.

(** X5.  The sent count never exceeds the number of prepared messages; it
    equals that number when every gateway call is delivered, and it is 0,
    with no token collected for deactivation, when none is. *)
Theorem sent_count_range (w : ProcessQueue.world) (messages : list Msg.t) :
  let d := ProcessQueue.deliver w messages in
  let calls := length (ProcessQueue.chunks messages) in
  ProcessQueue.totalSent d ≤ length messages ∧
  ((∀ k, k < calls → delivered_ok (ProcessQueue.gateway w k) = true) →
   ProcessQueue.totalSent d = length messages) ∧
  ((∀ k, k < calls → delivered_ok (ProcessQueue.gateway w k) = false) →
   ProcessQueue.totalSent d = 0 ∧ ProcessQueue.invalidTokens d = ∅).
Proof.
  intros d calls. subst d calls. rewrite deliver_totalSent.
  destruct (sent_count_bounds w (ProcessQueue.chunks messages) 0) as (Hle & Hall & Hno).
  assert (concat (ProcessQueue.chunks messages) = messages) as Hcat.
  { rewrite chunks_eq, concat_chunks_from. apply drop_0. }
  rewrite Hcat in *. split_and!; [done|done|].
  intros Hnone. split; [by apply Hno|].
  apply set_eq. intros token. rewrite deliver_invalidTokens. split.
  - intros (n & chunk & tickets & Hn & Hg & _).
    apply lookup_lt_Some in Hn. specialize (Hnone n Hn).
    simpl in Hg. rewrite Hg in Hnone. done.
  - by intros ?%not_elem_of_empty.
Qed.

Lemma sent_count_range_witness :
  let d := ProcessQueue.deliver Cases.gateway_down
             (prepared (claimed Cases.gateway_down Sample.db) Sample.db) in
  ProcessQueue.totalSent d = 0 ∧ ProcessQueue.invalidTokens d = ∅.
Proof.
  apply (proj2 (proj2 (sent_count_range Cases.gateway_down
           (prepared (claimed Cases.gateway_down Sample.db) Sample.db)))).
  intros k _. reflexivity.
Defined.

(** ** The queue processor: the order of the messages *)

Section order_of_messages.
Import ProcessQueue.



End order_of_messages.


(** On the sample table bob's entry is claimed first, so bob is the first
    user, and he contributes nothing; alice's two entries follow, each with
    her two tokens. *)
Example sample_message_order :
  first_seen (Queue.user_id <$> claimed Sample.world Sample.db) = ["bob"; "alice"] ∧
  (λ m, (Msg.to m, Msg.priority m)) <$> prepared (claimed Sample.world Sample.db) Sample.db =
    [("ExponentPushToken[a1]", JNum 5); ("ExponentPushToken[a2]", JNum 5);
     ("ExponentPushToken[a1]", JNum 1); ("ExponentPushToken[a2]", JNum 1)].
Proof. by vm_compute. Qed.

(** ** The queue processor: what a request leaves alone *)

Section frame_facts.
Import ProcessQueue.

Lemma elem_of_chunk messages chunk (m : Msg.t) :
  chunk ∈ chunks messages → m ∈ chunk → m ∈ messages.
Proof.
  intros Hc Hm.
  assert (m ∈ concat (chunks messages)) as Hin.
  { apply list_elem_of_In, in_concat. exists chunk.
    split; by apply list_elem_of_In. }
  by rewrite chunks_eq, concat_chunks_from, drop_0 in Hin.
Qed.

Lemma prepared_token notifications db (m : Msg.t) :
  m ∈ prepared notifications db →
  ∃ n, n ∈ notifications ∧ Msg.to m ∈ active_tokens (Queue.user_id n) db.
Proof.
  rewrite prepared_pair_messages. unfold pair_messages.
  intros (n & Hm & Hn)%list_elem_of_bind. exists n. split; [done|].
  by apply list_elem_of_fmap in Hm as (token & -> & Htok).
Qed.

Lemma invalid_token_of_batch w notifications db token :
  token ∈ invalidTokens (deliver w (prepared notifications db)) →
  ∃ n, n ∈ notifications ∧ token ∈ active_tokens (Queue.user_id n) db.
Proof.
  intros (k & chunk & tickets & Hk & _ & (j & t & m & _ & Hm & _ & _ & <-))
    %deliver_invalidTokens.
  apply prepared_token.
  apply (elem_of_chunk _ chunk); [|by apply list_elem_of_lookup_2 in Hm].
  by apply list_elem_of_lookup_2 in Hk.
Qed.

Lemma claimed_step_trans ids r1 r2 r3 :
  claimed_step ids r1 r2 → claimed_step ids r2 r3 → claimed_step ids r1 r3.
Proof.
  intros [->|(Hid & Hs & Hp)]; [done|].
  intros [->|(Hid' & Hs' & Hp')]; [right; done|].
  right. split_and!; try done.
  unfold same_notification in *.
  destruct Hs as (? & ? & ? & ? & ? & ? & ? & ?).
  destruct Hs' as (? & ? & ? & ? & ? & ? & ? & ?).
  split_and!; congruence.
Qed.

Lemma claimed_step_update ids (f : Queue.entry → Queue.entry) rows :
  (∀ r, same_notification r (f r) ∧ Queue.status (f r) ≠ pending) →
  Forall2 (claimed_step ids) rows (update_where (λ n, Queue.id n ∈ ids) f rows).
Proof.
  intros Hf. apply update_where_Forall2.
  - intros r _. by left.
  - intros r _ Hid. right. split; [done|]. apply Hf.
Qed.
End frame_facts.

(** X7.  A queue request deactivates only tokens of its own batch: a row of
    the token table is either left as it was or deactivated, and a
    deactivated row carries a token that the token query returned as an
    active token of a user of the batch.  The consultation tables are not
    written. *)
Theorem queue_deactivates_only_batch_tokens (w : ProcessQueue.world)
    (notifications : list Queue.entry) (db : database) :
  let o := ProcessQueue.after_claim w notifications db in
  Forall2
    (λ r r', r' = r ∨
             (r' = Token.deactivated r ∧
              ∃ n, n ∈ notifications ∧
                   Token.expo_push_token r ∈ active_tokens (Queue.user_id n) db))
    (profile_push_tokens db) (profile_push_tokens (database_of o)) ∧
  same_chat_tables db (database_of o).
Proof.
  intros o. subst o.
  assert (∀ rows : list Token.row,
            Forall2 (λ r r', r' = r ∨ (r' = Token.deactivated r ∧
                       ∃ n, n ∈ notifications ∧
                         Token.expo_push_token r ∈ active_tokens (Queue.user_id n) db))
                    rows rows) as Hrefl.
  { intros rows. apply Forall_Forall2_diag, Forall_forall. intros r _. by left. }
  destruct (decide (notifications = [])) as [->|Hne]; [by split|].
  destruct (after_claim_batch_end w notifications db Hne)
    as [m Hu|m Hu Ht|Hu Ht Hm|db2 evd Hu Ht Hm Hd];
    unfold database_of, same_chat_tables; simpl; try done.
  - by destruct (ProcessQueue.finalUpdateError w).
  - assert (Forall2 (λ r r', r' = r ∨ (r' = Token.deactivated r ∧
                       ∃ n, n ∈ notifications ∧
                         Token.expo_push_token r ∈ active_tokens (Queue.user_id n) db))
                    (profile_push_tokens db) (profile_push_tokens db2)
            ∧ same_chat_tables db db2) as [Htok Hchat].
    { destruct Hd as [(_ & -> & _)|(_ & -> & _)]; [done|].
      destruct (ProcessQueue.deactivateFails w); [done|].
      split; [|done]. simpl. apply update_where_Forall2.
      - intros r _. by left.
      - intros r _ Hin. right. split; [done|].
        apply elem_of_elements in Hin. by apply (invalid_token_of_batch w). }
    by destruct (ProcessQueue.finalUpdateError w).
Qed.

(** X8.  A queue request changes a queue row only if the row carries a
    claimed id, and then only its status, which is no longer pending, and
    its sent_at: id, user, title, body, data, priority, category and
    scheduled_for of every row are as before, and no row is added or
    removed. *)
Theorem queue_rows_keep_their_content (w : ProcessQueue.world) (db : database) :
  let o := ProcessQueue.process_queue w db in
  Forall2
    (λ r r', r' = r ∨
             (Queue.id r ∈ Queue.id <$> claimed w db ∧ same_notification r r' ∧
              Queue.status r' ≠ pending))
    (notification_queue db) (notification_queue (database_of o)).
Proof.
  intros o. subst o.
  assert (∀ ids rows, Forall2 (claimed_step ids) rows rows) as Hrefl.
  { intros ids rows. apply Forall_Forall2_diag, Forall_forall. intros r _. by left. }
  destruct (decide (claimed w db = [])) as [Hnil|Hne].
  { unfold claimed in Hnil. unfold ProcessQueue.process_queue.
    destruct (ProcessQueue.fetchError w); [apply Hrefl|].
    rewrite Hnil. apply Hrefl. }
  destruct (claimed_process_queue w db Hne) as (_ & -> & _).
  set (ids := Queue.id <$> claimed w db).
  assert (Forall2 (claimed_step ids) (notification_queue db)
            (notification_queue (ProcessQueue.mark_processing ids db))) as H1.
  { simpl. by apply claimed_step_update. }
  assert (∀ now db2,
            notification_queue db2 =
              notification_queue (ProcessQueue.mark_processing ids db) →
            Forall2 (claimed_step ids) (notification_queue db)
              (notification_queue (ProcessQueue.mark_sent now ids db2))) as H2.
  { intros now db2 Hq. simpl. rewrite Hq.
    eapply Forall2_trans; [apply claimed_step_trans|exact H1|].
    by apply claimed_step_update. }
  destruct (after_claim_batch_end w (claimed w db) db Hne)
    as [m Hu|m Hu Ht|Hu Ht Hm|db2 evd Hu Ht Hm Hd];
    unfold database_of; simpl; fold ids.
  - apply Hrefl.
  - exact H1.
  - destruct (ProcessQueue.finalUpdateError w); [exact H1|]. by apply H2.
  - assert (notification_queue db2 =
            notification_queue (ProcessQueue.mark_processing ids db)) as Hq.
    { destruct Hd as [(_ & -> & _)|(_ & -> & _)]; [done|].
      by destruct (ProcessQueue.deactivateFails w). }
    destruct (ProcessQueue.finalUpdateError w); simpl.
    + rewrite Hq. exact H1.
    + by apply H2.
Qed.

(** ** The queue processor: running it again *)

Section rerun_facts.
Import ProcessQueue.

Lemma fetch_pending_all now table :
  length (pending_due now table) ≤ BATCH_SIZE →
  fetch_pending now table ≡ₚ pending_due now table.
Proof.
  intros Hlen. unfold fetch_pending, limit, order, where_, pending_due in *.
  rewrite list_filter_filter.
  rewrite (list_filter_iff _
             (λ n, Queue.status n = pending ∧ (Queue.scheduled_for n ≤ now)%Z))
    by (intros n; tauto).
  rewrite take_ge; [apply merge_sort_Permutation|].
  by rewrite merge_sort_Permutation.
Qed.

Lemma fetch_pending_nil now table :
  (∀ n, n ∈ table → Queue.status n = pending → (Queue.scheduled_for n ≤ now)%Z →
        False) →
  fetch_pending now table = [].
Proof.
  intros Hnone. apply elem_of_nil_inv. intros n Hn.
  apply elem_of_fetch_pending in Hn as (Hin & Hp & Hd). by apply (Hnone n).
Qed.

(** A pending row of an updated table is a row that the update skipped. *)
Lemma pending_after_update (ids : list Z) (f : Queue.entry → Queue.entry) rows r :
  (∀ x, Queue.status (f x) ≠ pending) →
  r ∈ update_where (λ n, Queue.id n ∈ ids) f rows → Queue.status r = pending →
  r ∈ rows ∧ Queue.id r ∉ ids.
Proof.
  intros Hf (r0 & Hr0 & ->)%elem_of_update_where Hp.
  destruct (decide (Queue.id r0 ∈ ids)); [by destruct (Hf r0)|done].
Qed.

Lemma pending_row_survives w db r :
  fetchError w = None → updateError w = None →
  r ∈ notification_queue (database_of (process_queue w db)) →
  Queue.status r = pending →
  r ∈ notification_queue db ∧
  Queue.id r ∉ Queue.id <$> fetch_pending (fetchTime w) (notification_queue db).
Proof.
  intros Hf Hu Hr Hp. unfold process_queue in Hr. rewrite Hf in Hr.
  set (rows := fetch_pending _ _) in *.
  destruct (decide (rows = [])) as [Hn|Hne].
  { rewrite Hn in *. split; [done|]. by intros ?%elem_of_nil. }
  assert (∀ x, x ∈ notification_queue (mark_processing (Queue.id <$> rows) db) →
               Queue.status x = pending →
               x ∈ notification_queue db ∧ Queue.id x ∉ Queue.id <$> rows) as Hmarked.
  { intros x Hx Hxp. by apply (pending_after_update _ (Queue.with_status processing)). }
  assert (∀ now db2,
            notification_queue db2 =
              notification_queue (mark_processing (Queue.id <$> rows) db) →
            r ∈ notification_queue (mark_sent now (Queue.id <$> rows) db2) →
            r ∈ notification_queue db ∧ Queue.id r ∉ Queue.id <$> rows) as Hsent.
  { intros now db2 Hq Hr2. simpl in Hr2. rewrite Hq in Hr2.
    apply (pending_after_update _ (Queue.with_status_sent_at sent now)) in Hr2
      as [Hr2 _]; [|done..].
    by apply Hmarked. }
  destruct (after_claim_batch_end w rows db Hne)
    as [m Hu'|m Hu' Ht|Hu' Ht Hm|db2 evd Hu' Ht Hm Hd];
    unfold database_of in Hr; simpl in Hr; try congruence.
  - by apply Hmarked.
  - destruct (finalUpdateError w); [by apply Hmarked|].
    by apply (Hsent (sentTime w) (mark_processing (Queue.id <$> rows) db)).
  - assert (notification_queue db2 =
            notification_queue (mark_processing (Queue.id <$> rows) db)) as Hq.
    { destruct Hd as [(_ & -> & _)|(_ & -> & _)]; [done|].
      by destruct (deactivateFails w). }
    destruct (finalUpdateError w); simpl in Hr.
    + rewrite Hq in Hr. by apply Hmarked.
    + by apply (Hsent (sentTime w) db2).
Qed.
End rerun_facts.

(** X9.  Running the processor again finds nothing to do: after a request
    whose pending query and update to processing went through and whose
    query was not cut short by the limit of 500, a second request that asks
    for the rows due at the same or an earlier time claims nothing and
    answers ok with processed: 0, whatever happened to the first request
    after it marked its batch. *)
Theorem second_run_claims_nothing (w1 w2 : ProcessQueue.world) (db : database) :
  let db1 := database_of (ProcessQueue.process_queue w1 db) in
  ProcessQueue.fetchError w1 = None →
  ProcessQueue.updateError w1 = None →
  length (pending_due (ProcessQueue.fetchTime w1) (notification_queue db)) ≤ 500 →
  (ProcessQueue.fetchTime w2 ≤ ProcessQueue.fetchTime w1)%Z →
  ProcessQueue.fetchError w2 = None →
  claimed w2 db1 = [] ∧
  ProcessQueue.process_queue w2 db1 =
    (res_json [("ok", JBool true); ("processed", JNum 0)], db1, []).
Proof.
  intros db1 Hf1 Hu1 Hlen Htime Hf2.
  assert (ProcessQueue.fetch_pending (ProcessQueue.fetchTime w2) (notification_queue db1)
          = []) as Hnil.
  { apply fetch_pending_nil. intros r Hr Hp Hdue. subst db1.
    destruct (pending_row_survives w1 db r Hf1 Hu1 Hr Hp) as [Hin Hid].
    apply Hid, list_elem_of_fmap_2.
    rewrite (fetch_pending_all _ _ Hlen).
    apply list_elem_of_filter. split; [|done]. split; [done|lia]. }
  split.
  - unfold claimed. by rewrite Hf2.
  - unfold ProcessQueue.process_queue. by rewrite Hf2, Hnil.
Qed.

Lemma second_run_claims_nothing_witness :
  let db1 := database_of (ProcessQueue.process_queue Sample.world_flaky Sample.db_bulk) in
  claimed Sample.world db1 = [] ∧
  ProcessQueue.process_queue Sample.world db1 =
    (res_json [("ok", JBool true); ("processed", JNum 0)], db1, []).
Proof.
  apply (second_run_claims_nothing Sample.world_flaky Sample.world Sample.db_bulk).
  - reflexivity.
  - reflexivity.
  - vm_compute. repeat constructor.
  - vm_compute. discriminate.
  - reflexivity.
Defined.

(** ** The webhook receiver, generic payload: before the gateway call *)

Section webhook_exit_facts.
Import ChatwootWebhook.

Lemma fetch_tokens_active userId db :
  Token.expo_push_token <$> fetch_tokens userId db = active_tokens userId db.
Proof.
  unfold fetch_tokens, active_tokens, where_. f_equal.
  rewrite list_filter_filter. apply list_filter_iff. intros t. tauto.
Qed.

Lemma passes_filters req :
  event req = Some "message_created" → message_type req = Some "incoming" →
  (sender req ≫= type) = Some "User" →
  ∀ w db,
  chatwoot_webhook w req db =
    let userId := contact req ≫= identifier in
    if negb (truthy userId)
    then (res_status_json 400 [("error", JStr "Missing user identifier")], db, [])
    else from_gateway_or_exit w req db (default "" userId).
Proof.
  intros He Hm Hs w db. unfold chatwoot_webhook, from_gateway_or_exit, from_gateway.
  rewrite He, Hm, Hs.
  destruct (decide (_ ∨ _)) as [[?|?]|_]; [done..|].
  destruct (decide (Some "User" ≠ Some "User")) as [?|_]; [done|].
  simpl. destruct (negb _); [done|].
  destruct (tokensError w); [done|].
  destruct (decide (length _ = 0)); [done|].
  destruct (gateway w) as [| | |data]; try done.
  by destruct (match data with Some _ => _ | None => _ end) as [[db' issued] [message|]].
Qed.
End webhook_exit_facts.

(** X10.  A chat message that passes the filters but cannot be delivered
    ends the request early, with nothing sent and nothing written: without
    a contact identifier (absent or empty) the answer is 400 "Missing user
    identifier"; when the token query fails it is 500 with the datastore's
    message; when the user has no active token it is the acknowledgment
    "No active tokens". *)
Theorem undeliverable_chat_message (w : ChatwootWebhook.world)
    (req : ChatwootWebhook.body_t) (db : database) :
  let o := ChatwootWebhook.chatwoot_webhook w req db in
  let userId := ChatwootWebhook.contact req ≫= ChatwootWebhook.identifier in
  ChatwootWebhook.event req = Some "message_created" →
  ChatwootWebhook.message_type req = Some "incoming" →
  (ChatwootWebhook.sender req ≫= ChatwootWebhook.type) = Some "User" →
  (userId = None ∨ userId = Some "" →
   o = (res_status_json 400 [("error", JStr "Missing user identifier")], db, [])) ∧
  (∀ u message, userId = Some u → u ≠ "" →
     ChatwootWebhook.tokensError w = Some message →
     o = (res_status_json 500 [("error", JStr message)], db, [])) ∧
  (∀ u, userId = Some u → u ≠ "" →
     ChatwootWebhook.tokensError w = None → active_tokens u db = [] →
     o = (res_json [("ok", JBool true); ("message", JStr "No active tokens")], db, [])).
Proof.
  intros o userId He Hm Hs. subst o userId.
  rewrite (passes_filters req He Hm Hs w db). split_and!.
  - by intros [->| ->].
  - intros u message -> Hu Ht. simpl. rewrite bool_decide_true by done. simpl.
    unfold from_gateway_or_exit. by rewrite Ht.
  - intros u -> Hu Ht Hnone. simpl. rewrite bool_decide_true by done. simpl.
    unfold from_gateway_or_exit. rewrite Ht.
    rewrite <- fetch_tokens_active in Hnone. apply fmap_nil_inv in Hnone.
    by rewrite Hnone.
Qed.

Lemma undeliverable_chat_message_witness :
  ChatwootWebhook.chatwoot_webhook Sample.hook_world Cases.anonymous_request Sample.db =
    (res_status_json 400 [("error", JStr "Missing user identifier")], Sample.db, []) ∧
  ChatwootWebhook.chatwoot_webhook Sample.hook_world Cases.bob_request Sample.db =
    (res_json [("ok", JBool true); ("message", JStr "No active tokens")], Sample.db, []).
Proof.
  split.
  - apply (proj1 (undeliverable_chat_message Sample.hook_world Cases.anonymous_request
                    Sample.db eq_refl eq_refl eq_refl)).
    left. reflexivity.
  - apply (proj2 (proj2 (undeliverable_chat_message Sample.hook_world Cases.bob_request
                           Sample.db eq_refl eq_refl eq_refl)) "bob").
    + reflexivity.
    + discriminate.
    + reflexivity.
    + reflexivity.
Defined.

(** ** The webhook receiver, generic payload: the gateway call and after *)

Section webhook_send_facts.
Import ChatwootWebhook.
Variables (w : world) (messages : list Msg.t).

Lemma deactivation_step_trans tokens r1 r2 r3 :
  deactivation_step tokens r1 r2 → deactivation_step tokens r2 r3 →
  deactivation_step tokens r1 r3.
Proof.
  intros [->|[-> H1]]; [done|].
  intros [->|[-> H2]]; right; by split.
Qed.

(** The loop over the tickets only deactivates tokens it sent to, issues
    nothing but deactivations, and leaves the other tables alone. *)
Lemma reconcile_frame tickets : ∀ i db issued,
  let r := reconcile w messages i tickets db issued in
  Forall2 (deactivation_step (Msg.to <$> messages))
    (profile_push_tokens db) (profile_push_tokens r.1.1) ∧
  notification_queue r.1.1 = notification_queue db ∧
  same_chat_tables db r.1.1 ∧
  (Forall (λ e, is_gateway_send e = false) issued →
   Forall (λ e, is_gateway_send e = false) r.1.2).
Proof.
  assert (∀ rows : list Token.row,
            Forall2 (deactivation_step (Msg.to <$> messages)) rows rows) as Hrefl.
  { intros rows. apply Forall_Forall2_diag, Forall_forall. intros r _. by left. }
  induction tickets as [|ticket rest IH]; intros i db issued; simpl; [by split_and!|].
  destruct (device_not_registered ticket).
  - destruct (messages !! i) as [m|] eqn:Hm; [|by split_and!].
    set (db1 := if deactivateFails w i then db else deactivate_token (Msg.to m) db).
    assert (Forall2 (deactivation_step (Msg.to <$> messages))
              (profile_push_tokens db) (profile_push_tokens db1)
            ∧ notification_queue db1 = notification_queue db
            ∧ same_chat_tables db db1) as (H1 & H2 & H3).
    { unfold db1. destruct (deactivateFails w i); [by split_and!|].
      split_and!; try done. simpl. apply update_where_Forall2.
      - intros r _. by left.
      - intros r _ Hr. right. split; [done|]. rewrite Hr.
        apply list_elem_of_fmap_2. by apply list_elem_of_lookup_2 in Hm. }
    destruct (IH (S i) db1 (issued ++ [DeactivateTokens [Msg.to m]]))
      as (IH1 & IH2 & IH3 & IH4).
    split_and!.
    + eapply Forall2_trans; [apply deactivation_step_trans|exact H1|exact IH1].
    + congruence.
    + unfold same_chat_tables in *. destruct H3 as (? & ? & ?), IH3 as (? & ? & ?).
      split_and!; congruence.
    + intros Hissued. apply IH4. apply Forall_app. split; [done|].
      by repeat constructor.
  - apply IH.
Qed.

Lemma reconcile_no_raise tickets : ∀ i db issued,
  i + length tickets ≤ length messages →
  (reconcile w messages i tickets db issued).2 = None.
Proof.
  induction tickets as [|ticket rest IH]; intros i db issued Hlen; simpl in *; [done|].
  destruct (device_not_registered ticket).
  - destruct (messages !! i) as [m|] eqn:Hm.
    + apply IH. lia.
    + apply lookup_ge_None in Hm. lia.
  - apply IH. lia.
Qed.

Lemma reconcile_raises tickets : ∀ i db issued j ticket,
  tickets !! j = Some ticket → device_not_registered ticket = true →
  length messages ≤ i + j →
  (reconcile w messages i tickets db issued).2 = Some undefined_to.
Proof.
  induction tickets as [|t rest IH]; intros i db issued j ticket Hj Hd Hlen; simpl.
  { by rewrite lookup_nil in Hj. }
  destruct j as [|j]; simpl in Hj.
  - injection Hj as ->. rewrite Hd, Nat.add_0_r in *.
    by rewrite (proj2 (lookup_ge_None messages i) Hlen).
  - destruct (device_not_registered t).
    + destruct (messages !! i) as [m|] eqn:Hm; [|done].
      apply (IH (S i) _ _ j ticket); [done..|lia].
    + apply (IH (S i) _ _ j ticket); [done..|lia].
Qed.
End webhook_send_facts.

Section webhook_outcome_facts.
Import ChatwootWebhook.

Lemma filter_nil_Forall {A} (P : A → Prop) `{!∀ x, Decision (P x)} (l : list A) :
  Forall (λ x, ¬ P x) l → filter P l = [].
Proof.
  intros Hall. apply elem_of_nil_inv. intros x [HP Hx]%list_elem_of_filter.
  rewrite Forall_forall in Hall. by apply (Hall x).
Qed.

Lemma no_gateway_send (l : list effect) :
  Forall (λ e, is_gateway_send e = false) l → filter (λ e, is_gateway_send e) l = [].
Proof.
  intros Hall. apply filter_nil_Forall. eapply Forall_impl; [exact Hall|].
  intros e He Hsend. simpl in He. rewrite He in Hsend. exact Hsend.
Qed.

(** The effects, the database and the error of the part of the handler that
    follows a delivered gateway call. *)
Lemma delivered_outcome w req db userId data :
  reaches_gateway w req db userId data →
  let messages := make_message w userId (content req) <$> fetch_tokens userId db in
  ∃ db' issued raised,
    chatwoot_webhook w req db =
      (match raised with
       | Some message => fatal w message
       | None => res_json [("ok", JBool true);
                           ("sent", JNum (Z.of_nat (length (fetch_tokens userId db))));
                           ("duration_ms", JNum (endTime w - startTime w))]
       end, db', GatewaySend messages :: issued) ∧
    Forall (λ e, is_gateway_send e = false) issued ∧
    Forall2 (deactivation_step (Msg.to <$> messages))
      (profile_push_tokens db) (profile_push_tokens db') ∧
    notification_queue db' = notification_queue db ∧ same_chat_tables db db' ∧
    raised = match data with
             | Some tickets => (reconcile w messages 0 tickets db []).2
             | None => None
             end.
Proof.
  intros Hreach messages.
  rewrite (webhook_delivered w req db userId data Hreach). fold messages.
  destruct data as [tickets|].
  - destruct (reconcile_frame w messages tickets 0 db []) as (H1 & H2 & H3 & H4).
    destruct (reconcile w messages 0 tickets db []) as [[db' issued] raised].
    exists db', issued, raised. simpl in *. split_and!; try done. by apply H4.
  - exists db, [], None. simpl. split_and!; try done.
    apply Forall_Forall2_diag, Forall_forall. intros r _. by left.
Qed.
End webhook_outcome_facts.

(** X11.  A chat message that reaches the gateway is sent in one call, with
    one message per active token of the user, in the order of the token
    query, however many tokens there are; every message has priority high
    and channel chat, and as body the text of the chat message or, when
    that is missing or empty, the standard notice. *)
Theorem one_message_per_active_token (w : ChatwootWebhook.world)
    (req : ChatwootWebhook.body_t) (db : database) (userId : string)
    (data : option (list Ticket.t)) :
  let o := ChatwootWebhook.chatwoot_webhook w req db in
  let messages :=
    ChatwootWebhook.make_message w userId (ChatwootWebhook.content req)
      <$> ChatwootWebhook.fetch_tokens userId db in
  reaches_gateway w req db userId data →
  Msg.to <$> messages = active_tokens userId db ∧
  filter (λ e, is_gateway_send e) (effects_of o) = [GatewaySend messages] ∧
  Forall (λ m,
            Msg.body m =
              match ChatwootWebhook.content req with
              | Some text => if decide (text = "") then "Tienes un nuevo mensaje en el chat"
                             else text
              | None => "Tienes un nuevo mensaje en el chat"
              end ∧
            Msg.priority m = JStr "high" ∧ Msg.channelId m = "chat")
         messages.
Proof.
  intros o messages Hreach. subst o. split_and!.
  - unfold messages. rewrite <- list_fmap_compose.
    by rewrite <- fetch_tokens_active.
  - destruct (delivered_outcome w req db userId data Hreach)
      as (db' & issued & raised & -> & Hissued & _).
    unfold effects_of. simpl. rewrite filter_cons_True by done.
    by rewrite (no_gateway_send issued Hissued).
  - apply Forall_fmap, Forall_forall. intros t _. simpl. split_and!; try done.
    destruct (ChatwootWebhook.content req) as [text|]; [|done]. simpl.
    destruct (decide (text = "")) as [->|Hne]; [done|].
    by rewrite bool_decide_true.
Qed.

Lemma one_message_per_active_token_witness :
  let w := Sample.hook_world in
  let o := ChatwootWebhook.chatwoot_webhook w Cases.empty_request Sample.db in
  let messages :=
    ChatwootWebhook.make_message w "alice" (ChatwootWebhook.content Cases.empty_request)
      <$> ChatwootWebhook.fetch_tokens "alice" Sample.db in
  Msg.to <$> messages = active_tokens "alice" Sample.db ∧
  filter (λ e, is_gateway_send e) (effects_of o) = [GatewaySend messages] ∧
  Forall (λ m,
            Msg.body m =
              match ChatwootWebhook.content Cases.empty_request with
              | Some text => if decide (text = "") then "Tienes un nuevo mensaje en el chat"
                             else text
              | None => "Tienes un nuevo mensaje en el chat"
              end ∧
            Msg.priority m = JStr "high" ∧ Msg.channelId m = "chat")
         messages.
Proof.
  apply (one_message_per_active_token Sample.hook_world Cases.empty_request Sample.db
           "alice" (Some [Sample.ticket_ok; Sample.ticket_error "DeviceNotRegistered"])).
  unfold reaches_gateway, calls_gateway.
  split_and!; vm_compute; (reflexivity || discriminate).
Defined.

(** X12.  The sent field of the webhook receiver counts the messages
    submitted, not the ones the gateway accepted: when the gateway call is
    delivered and returns no more tickets than messages, the response is
    200 with ok, sent equal to the number of active tokens of the user and
    the duration, whatever the tickets say. *)
Theorem sent_reports_submitted_messages (w : ChatwootWebhook.world)
    (req : ChatwootWebhook.body_t) (db : database) (userId : string)
    (data : option (list Ticket.t)) :
  let o := ChatwootWebhook.chatwoot_webhook w req db in
  reaches_gateway w req db userId data →
  (∀ tickets, data = Some tickets → length tickets ≤ length (active_tokens userId db)) →
  response_of o =
    res_json [("ok", JBool true);
              ("sent", JNum (Z.of_nat (length (active_tokens userId db))));
              ("duration_ms",
               JNum (ChatwootWebhook.endTime w - ChatwootWebhook.startTime w))].
Proof.
  intros o Hreach Hlen. subst o.
  destruct (delivered_outcome w req db userId data Hreach)
    as (db' & issued & raised & -> & _ & _ & _ & _ & ->).
  unfold response_of. simpl.
  rewrite <- fetch_tokens_active, length_fmap in *.
  destruct data as [tickets|]; [|done].
  rewrite reconcile_no_raise; [done|].
  rewrite length_fmap. simpl. by apply Hlen.
Qed.

Lemma sent_reports_submitted_messages_witness :
  let w := Sample.hook_world in
  let o := ChatwootWebhook.chatwoot_webhook w Sample.request Sample.db in
  response_of o =
    res_json [("ok", JBool true);
              ("sent", JNum (Z.of_nat (length (active_tokens "alice" Sample.db))));
              ("duration_ms",
               JNum (ChatwootWebhook.endTime w - ChatwootWebhook.startTime w))].
Proof.
  apply (sent_reports_submitted_messages Sample.hook_world Sample.request Sample.db
           "alice" (Some [Sample.ticket_ok; Sample.ticket_error "DeviceNotRegistered"])).
  - unfold reaches_gateway, calls_gateway.
    split_and!; vm_compute; (reflexivity || discriminate).
  - intros tickets [= <-]. vm_compute. repeat constructor.
Defined.

(** X13.  When the gateway returns a ticket for an unregistered device at
    a position beyond the submitted messages, reading the token of the
    missing message raises: the request answers 500 with the message of
    that error and the duration, although the messages were submitted in
    the one gateway call before. *)
Theorem surplus_ticket_fails_request (w : ChatwootWebhook.world)
    (req : ChatwootWebhook.body_t) (db : database) (userId : string)
    (tickets : list Ticket.t) (j : nat) (ticket : Ticket.t) :
  let o := ChatwootWebhook.chatwoot_webhook w req db in
  let messages :=
    ChatwootWebhook.make_message w userId (ChatwootWebhook.content req)
      <$> ChatwootWebhook.fetch_tokens userId db in
  reaches_gateway w req db userId (Some tickets) →
  tickets !! j = Some ticket →
  Ticket.status ticket = "error" →
  (Ticket.details ticket ≫= Ticket.error) = Some "DeviceNotRegistered" →
  length (active_tokens userId db) ≤ j →
  response_of o =
    res_status_json 500
      [("error", JStr ChatwootWebhook.undefined_to);
       ("duration_ms", JNum (ChatwootWebhook.endTime w - ChatwootWebhook.startTime w))] ∧
  filter (λ e, is_gateway_send e) (effects_of o) = [GatewaySend messages].
Proof.
  intros o messages Hreach Hj Hs Hd Hlen. subst o.
  destruct (delivered_outcome w req db userId (Some tickets) Hreach)
    as (db' & issued & raised & -> & Hissued & _ & _ & _ & ->).
  unfold response_of, effects_of. simpl. fold messages.
  rewrite (reconcile_raises w messages tickets 0 db [] j ticket Hj).
  - split; [done|]. rewrite filter_cons_True by done.
    by rewrite (no_gateway_send issued Hissued).
  - by apply device_not_registered_spec.
  - unfold messages. rewrite length_fmap. simpl.
    by rewrite <- fetch_tokens_active, length_fmap in Hlen.
Qed.

Lemma surplus_ticket_fails_request_witness :
  let w := Cases.hook_extra_ticket in
  let o := ChatwootWebhook.chatwoot_webhook w Sample.request Sample.db in
  let messages :=
    ChatwootWebhook.make_message w "alice" (ChatwootWebhook.content Sample.request)
      <$> ChatwootWebhook.fetch_tokens "alice" Sample.db in
  response_of o =
    res_status_json 500
      [("error", JStr ChatwootWebhook.undefined_to);
       ("duration_ms", JNum (ChatwootWebhook.endTime w - ChatwootWebhook.startTime w))] ∧
  filter (λ e, is_gateway_send e) (effects_of o) = [GatewaySend messages].
Proof.
  apply (surplus_ticket_fails_request Cases.hook_extra_ticket Sample.request Sample.db
           "alice"
           [Sample.ticket_error "DeviceNotRegistered"; Sample.ticket_ok;
            Sample.ticket_error "DeviceNotRegistered"]
           2 (Sample.ticket_error "DeviceNotRegistered")).
  - unfold reaches_gateway, calls_gateway.
    split_and!; vm_compute; (reflexivity || discriminate).
  - reflexivity.
  - reflexivity.
  - reflexivity.
  - vm_compute. repeat constructor.
Defined.

(** In that request the first ticket had already deactivated the first
    token of alice when the third one raised. *)
Example surplus_ticket_after_deactivation :
  let o := ChatwootWebhook.chatwoot_webhook Cases.hook_extra_ticket Sample.request
             Sample.db in
  status_code (response_of o) = 500%Z ∧
  Token.is_active <$> profile_push_tokens (database_of o) = [false; true; false].
Proof. by vm_compute. Qed.

(** X14.  Whatever the request and the collaborators do, the webhook
    receiver of the generic payload calls the gateway at most once, writes
    to no table but the token table, and there only sets is_active to false
    on rows whose token is an active token of the contact of the request;
    when the gateway call is not delivered it writes nothing at all. *)
Theorem webhook_writes_only_token_flags (w : ChatwootWebhook.world)
    (req : ChatwootWebhook.body_t) (db : database) :
  let o := ChatwootWebhook.chatwoot_webhook w req db in
  let user :=
    default "" (ChatwootWebhook.contact req ≫= ChatwootWebhook.identifier) in
  Forall2 (deactivation_step (active_tokens user db))
    (profile_push_tokens db) (profile_push_tokens (database_of o)) ∧
  notification_queue (database_of o) = notification_queue db ∧
  same_chat_tables db (database_of o) ∧
  length (filter (λ e, is_gateway_send e) (effects_of o)) ≤ 1 ∧
  (delivered_ok (ChatwootWebhook.gateway w) = false → database_of o = db).
Proof.
  intros o user. subst o.
  assert (∀ tokens (rows : list Token.row),
            Forall2 (deactivation_step tokens) rows rows) as Hrefl.
  { intros tokens rows. apply Forall_Forall2_diag, Forall_forall. intros r _. by left. }
  destruct (webhook_early_or_calls w req db) as [[userId Hcalls]|(_ & -> & ->)].
  2:{ split_and!; try done; first [apply Hrefl|simpl; lia]. }
  assert (user = userId) as ->.
  { unfold user. destruct Hcalls as (_ & _ & _ & -> & _). done. }
  destruct (ChatwootWebhook.gateway w) as [m|code text|m|data] eqn:Hg.
  1-3: rewrite (webhook_from_gateway w req db userId Hcalls);
       unfold from_gateway; rewrite Hg;
       split_and!; try done; first [apply Hrefl|simpl; lia].
  destruct (delivered_outcome w req db userId data (conj Hcalls Hg))
    as (db' & issued & raised & -> & Hissued & Htok & Hq & Hchat & _).
  unfold database_of, effects_of. cbn [fst snd]. split_and!; try done.
  - rewrite <- list_fmap_compose in Htok.
    by rewrite <- fetch_tokens_active.
  - rewrite filter_cons_True by done. by rewrite (no_gateway_send issued Hissued).
Qed.

(** ** The webhook receiver, ticketing payload *)

Section handler_facts.
Import ChatwootHandler.

Lemma single_limit_1 {A} (rows : list A) : single (limit 1 rows) = head rows.
Proof. by destruct rows as [|r [|r' rows]]. Qed.

Lemma single_Some {A} (rows : list A) r : single rows = Some r ↔ rows = [r].
Proof.
  destruct rows as [|x [|y rows]]; simpl; split; try done.
  - by intros [= ->].
  - by intros [= ->].
Qed.

(** The outcomes of the handler, by the step at which it ends. *)
Lemma handler_ends w req db :
  (∃ r, handler w req db = (r, db, []) ∧
        status_code r ∈ [200; 404; 405; 500]%Z ∧
        get_field "message_id" (payload r) = None) ∨
  (∃ msg conv consultation row,
     method req = "POST" ∧ event (body req) = Some "message_created" ∧
     message (body req) = Some msg ∧ message_type msg ≠ Some "outgoing" ∧
     conversation (body req) = Some conv ∧
     find_consultation w conv db = Some consultation ∧
     row = {| ConsultationMessage.id := savedMessageId w;
              ConsultationMessage.consultation_id := Consultation.id consultation;
              ConsultationMessage.user_id := (attribute w msg consultation db).1;
              ConsultationMessage.content := content msg;
              ConsultationMessage.message_type := (attribute w msg consultation db).2;
              ConsultationMessage.is_read := false |} ∧
     match messageError w with
     | Some message =>
         handler w req db =
           (res_status_json 500 [("error", JStr "Failed to save message");
                                 ("details", JStr message)],
            db, [InsertConsultationMessage row])
     | None =>
         handler w req db =
           (res_status_json 200
              [("success", JBool true);
               ("message_id", JNum (savedMessageId w));
               ("consultation_id", JNum (Consultation.id consultation))],
            set_consultation_messages (consultation_messages db ++ [row]) db,
            [InsertConsultationMessage row])
     end).
Proof.
  unfold handler.
  destruct (decide (method req ≠ "POST")) as [|Hm%dec_stable].
  { left. eexists. split; [done|]. split; [|done]. set_solver. }
  destruct (decide (event (body req) ≠ Some "message_created")) as [|He%dec_stable].
  { left. eexists. split; [done|]. split; [|done]. set_solver. }
  destruct (message (body req)) as [msg|] eqn:Hmsg.
  2:{ left. eexists. split; [done|]. split; [|done]. set_solver. }
  destruct (decide (message_type msg = Some "outgoing")) as [|Hout].
  { left. eexists. split; [done|]. split; [|done]. set_solver. }
  destruct (conversation (body req)) as [conv|] eqn:Hconv.
  2:{ left. eexists. split; [done|]. split; [|done]. set_solver. }
  destruct (find_consultation w conv db) as [consultation|] eqn:Hfind.
  2:{ left. eexists. split; [done|]. split; [|done]. set_solver. }
  right. exists msg, conv, consultation. eexists. split_and!; try done.
  destruct (attribute w msg consultation db) as [senderId messageType].
  by destruct (messageError w).
Qed.
End handler_facts.

(** X15.  The ticketing handler stores at most one consultation message per
    request and writes nothing else: it never touches the queue, the token
    table, the consultations or the profiles, and it leaves the messages
    already stored in place.  Either the database is as before and the
    response, with status 200, 404, 405 or 500, names no message id; or one
    unread row with the id the datastore gave it has been appended and the
    response is 200 with that message id.  A row is appended exactly when
    the request is a POST of a message_created event with a message that is
    not outgoing, in a conversation linked to a consultation, and the
    insert succeeds. *)
Theorem handler_stores_at_most_one_message (w : ChatwootHandler.world)
    (req : ChatwootHandler.request) (db : database) :
  let o := ChatwootHandler.handler w req db in
  same_push_tables db (database_of o) ∧
  ((database_of o = db ∧
    status_code (response_of o) ∈ [200; 404; 405; 500]%Z ∧
    get_field "message_id" (payload (response_of o)) = None) ∨
   (∃ row,
      consultation_messages (database_of o) = consultation_messages db ++ [row] ∧
      ConsultationMessage.is_read row = false ∧
      ConsultationMessage.id row = ChatwootHandler.savedMessageId w ∧
      status_code (response_of o) = 200%Z ∧
      get_field "message_id" (payload (response_of o)) =
        Some (JNum (ChatwootHandler.savedMessageId w)) ∧
      effects_of o = [InsertConsultationMessage row])) ∧
  ((∃ row, consultation_messages (database_of o) = consultation_messages db ++ [row]) ↔
   ChatwootHandler.method req = "POST" ∧
   ChatwootHandler.event (ChatwootHandler.body req) = Some "message_created" ∧
   ChatwootHandler.messageError w = None ∧
   ∃ msg conv consultation,
     ChatwootHandler.message (ChatwootHandler.body req) = Some msg ∧
     ChatwootHandler.message_type msg ≠ Some "outgoing" ∧
     ChatwootHandler.conversation (ChatwootHandler.body req) = Some conv ∧
     ChatwootHandler.find_consultation w conv db = Some consultation).
Proof.
  intros o. subst o.
  assert (∀ (l : list ConsultationMessage.row) row, l ≠ l ++ [row]) as Hgrow.
  { intros l row Heq. apply (f_equal length) in Heq.
    rewrite length_app in Heq. simpl in Heq. lia. }
  destruct (handler_ends w req db)
    as [(r & Hh & Hcode & Hid)
       |(msg & conv & c & row & Hm & He & Hmsg & Hout & Hconv & Hfind & Hrow & Hend)].
  - rewrite Hh. unfold database_of, response_of. simpl. split_and!; [done|by left|].
    split.
    + intros [row Hrow]. by destruct (Hgrow _ _ Hrow).
    + intros (Hm & He & Herr & msg & conv & c & Hmsg & Hout & Hconv & Hfind).
      destruct (ticketing_agent_persisted w req db msg conv c
                  Hm He Hmsg Hout Hconv Hfind Herr) as (row & Heq & _).
      rewrite Hh in Heq. discriminate Heq.
  - destruct (ChatwootHandler.messageError w) as [message|] eqn:Herr; rewrite Hend;
      unfold database_of, response_of, effects_of; simpl.
    + split_and!; [done| |].
      * left. split_and!; try done. set_solver.
      * split.
        -- intros [row' Hrow']. by destruct (Hgrow _ _ Hrow').
        -- by intros (_ & _ & ? & _).
    + split_and!; [done| |].
      * right. exists row. rewrite Hrow. done.
      * split; [|by exists row].
        intros _. split_and!; try done. by exists msg, conv, c.
Qed.

(** X16.  A message is stored only when exactly one consultation is linked
    to its conversation, the link being the decimal rendering of the
    conversation id: when the lookup fails, or finds no consultation or
    more than one, the request answers 404 "Consultation not found" with
    the conversation id, and stores nothing. *)
Theorem unmatched_conversation_is_not_found (w : ChatwootHandler.world)
    (req : ChatwootHandler.request) (db : database)
    (msg : ChatwootHandler.message_t) (conv : ChatwootHandler.conversation_t) :
  ChatwootHandler.method req = "POST" →
  ChatwootHandler.event (ChatwootHandler.body req) = Some "message_created" →
  ChatwootHandler.message (ChatwootHandler.body req) = Some msg →
  ChatwootHandler.message_type msg ≠ Some "outgoing" →
  ChatwootHandler.conversation (ChatwootHandler.body req) = Some conv →
  ChatwootHandler.consultationError w = true ∨
  length (filter (λ c, Consultation.chatwoot_conversation_id c =
                       pretty (ChatwootHandler.id conv)) (consultations db)) ≠ 1 →
  ChatwootHandler.handler w req db =
    (res_status_json 404 [("error", JStr "Consultation not found");
                          ("conversation_id", JNum (ChatwootHandler.id conv))],
     db, []).
Proof.
  intros Hm He Hmsg Hout Hconv Hnone.
  assert (ChatwootHandler.find_consultation w conv db = None) as Hfind.
  { unfold ChatwootHandler.find_consultation, where_.
    destruct Hnone as [->|Hlen]; [done|].
    destruct (ChatwootHandler.consultationError w); [done|].
    by destruct (filter _ _) as [|c [|c' rows]]. }
  unfold ChatwootHandler.handler.
  destruct (decide (ChatwootHandler.method req ≠ "POST")) as [Hno|_]; [done|].
  destruct (decide (_ ≠ Some "message_created")) as [Hno|_]; [done|].
  by rewrite Hmsg, decide_False, Hconv, Hfind by done.
Qed.

Lemma unmatched_conversation_is_not_found_witness :
  ChatwootHandler.handler Sample.handler_world Sample.agent_request Cases.db_ambiguous =
    (res_status_json 404 [("error", JStr "Consultation not found");
                          ("conversation_id", JNum 42)],
     Cases.db_ambiguous, []).
Proof.
  apply (unmatched_conversation_is_not_found Sample.handler_world Sample.agent_request
           Cases.db_ambiguous
           {| ChatwootHandler.message_type := Some "incoming";
              ChatwootHandler.content := Some "Buenos dias";
              ChatwootHandler.sender :=
                Some {| ChatwootHandler.type := Some "agent" |} |}
           {| ChatwootHandler.id := 42 |}).
  - reflexivity.
  - reflexivity.
  - reflexivity.
  - discriminate.
  - reflexivity.
  - right. vm_compute. discriminate.
Defined.

(** X17.  The sender a stored message is attributed to.  A message whose
    sender is not an agent is stored under the user of the consultation,
    with type user.  A message of an agent is stored under the consultant
    of the consultation, with type consultant; when the consultation has
    no consultant, under the first profile of the table with role admin or
    author, with type consultant; and when there is no such profile, or
    the profile lookup fails, under the user of the consultation, with type
    system. *)
Theorem stored_message_attribution (w : ChatwootHandler.world)
    (req : ChatwootHandler.request) (db : database)
    (msg : ChatwootHandler.message_t) (conv : ChatwootHandler.conversation_t)
    (consultation : Consultation.row) :
  let o := ChatwootHandler.handler w req db in
  let agent := (ChatwootHandler.sender msg ≫= ChatwootHandler.type) = Some "agent" in
  let staff :=
    if ChatwootHandler.adminError w then None
    else head (filter (λ p, Profile.role p ∈ ["admin"; "author"]) (profiles db)) in
  ChatwootHandler.method req = "POST" →
  ChatwootHandler.event (ChatwootHandler.body req) = Some "message_created" →
  ChatwootHandler.message (ChatwootHandler.body req) = Some msg →
  ChatwootHandler.message_type msg ≠ Some "outgoing" →
  ChatwootHandler.conversation (ChatwootHandler.body req) = Some conv →
  ChatwootHandler.find_consultation w conv db = Some consultation →
  ChatwootHandler.messageError w = None →
  ∃ row,
    consultation_messages (database_of o) = consultation_messages db ++ [row] ∧
    ConsultationMessage.consultation_id row = Consultation.id consultation ∧
    ConsultationMessage.content row = ChatwootHandler.content msg ∧
    (¬ agent →
     ConsultationMessage.user_id row = Consultation.user_id consultation ∧
     ConsultationMessage.message_type row = "user") ∧
    (agent → ∀ consultant,
       Consultation.consultant_id consultation = Some consultant → consultant ≠ "" →
       ConsultationMessage.user_id row = consultant ∧
       ConsultationMessage.message_type row = "consultant") ∧
    (agent →
     Consultation.consultant_id consultation = None ∨
     Consultation.consultant_id consultation = Some "" →
     match staff with
     | Some profile =>
         ConsultationMessage.user_id row = Profile.id profile ∧
         ConsultationMessage.message_type row = "consultant"
     | None =>
         ConsultationMessage.user_id row = Consultation.user_id consultation ∧
         ConsultationMessage.message_type row = "system"
     end).
Proof.
  intros o agent staff Hm He Hmsg Hout Hconv Hfind Herr. subst o.
  destruct (ticketing_agent_persisted w req db msg conv consultation
              Hm He Hmsg Hout Hconv Hfind Herr) as (row & -> & Hc & Hcontent & Hattr).
  exists row. unfold database_of. simpl. split_and!; try done.
  - intros Hno. unfold ChatwootHandler.attribute in Hattr.
    rewrite bool_decide_false in Hattr by done. by injection Hattr as -> ->.
  - intros Hagent consultant Hcid Hne. unfold ChatwootHandler.attribute in Hattr.
    rewrite bool_decide_true, Hcid in Hattr by done. simpl in Hattr.
    rewrite bool_decide_true in Hattr by done. by injection Hattr as -> ->.
  - intros Hagent Hnone. unfold ChatwootHandler.attribute in Hattr.
    rewrite bool_decide_true in Hattr by done.
    assert (truthy (Consultation.consultant_id consultation) = false) as Hfalsy.
    { by destruct Hnone as [->| ->]. }
    rewrite Hfalsy in Hattr.
    assert (ChatwootHandler.find_admin w db = staff) as Hstaff.
    { unfold ChatwootHandler.find_admin, staff.
      destruct (ChatwootHandler.adminError w); [done|]. apply single_limit_1. }
    rewrite Hstaff in Hattr.
    destruct staff as [profile|]; by injection Hattr as -> ->.
Qed.

Lemma stored_message_attribution_witness :
  let o := ChatwootHandler.handler Sample.handler_world Sample.agent_request
             Cases.db_unassigned in
  ∃ row,
    consultation_messages (database_of o) =
      consultation_messages Cases.db_unassigned ++ [row] ∧
    ConsultationMessage.user_id row = "erin" ∧
    ConsultationMessage.message_type row = "consultant".
Proof.
  destruct (stored_message_attribution Sample.handler_world Sample.agent_request
              Cases.db_unassigned
              {| ChatwootHandler.message_type := Some "incoming";
                 ChatwootHandler.content := Some "Buenos dias";
                 ChatwootHandler.sender :=
                   Some {| ChatwootHandler.type := Some "agent" |} |}
              {| ChatwootHandler.id := 42 |}
              {| Consultation.id := 9; Consultation.user_id := "bob";
                 Consultation.consultant_id := None;
                 Consultation.chatwoot_conversation_id := "42" |}
              eq_refl eq_refl eq_refl ltac:(discriminate) eq_refl eq_refl eq_refl)
    as (row & Hrow & _ & _ & _ & _ & Hstaff).
  exists row. split; [exact Hrow|].
  exact (Hstaff eq_refl (or_introl eq_refl)).
Defined.
